(** * Resilient HTTP client: retry engine and run aggregation

    A shallow embedding of [client.py]: the retry loop of
    [make_resilient_call], the fold of [run_test], the derived
    statistics of [CallStats], the report of [print_statistics] and the
    entry point [main]; and of the scenario choice of [server.py].  The
    properties of the specification and further properties of the code
    are stated over them.

    Modelling conventions.
    - Python integers are [Z].
    - Durations (seconds, Python floats) are exact rationals [Q] in the
      main development, where no statement depends on the rounding of
      float addition; the module [Float64] repeats the engine and the
      runner with wall-clock durations as binary64 floats, for the
      statements about [total_time].  The comparison
      [response.elapsed.total_seconds() > timeout] is made on a
      [timedelta], whose resolution is one microsecond, so it agrees with
      the rational comparison against 3/10 and 35.
    - The network and the clock are a [World]: the answer to the n-th
      HTTP request of the run.  [requests.get] and [response.json] may
      raise; an exception is described by what the [except] clause tests
      (its classes) and by [str(e)].
    - Logging has no effect on results and is left out. *)

From Stdlib Require Import ZArith QArith List String Bool Lia PrimFloat.
Import ListNotations.

Set Warnings "-inexact-float".

Local Open Scope string_scope.
Local Open Scope list_scope.
Local Open Scope Z_scope.

(** ** Data model *)

Inductive TimeoutStrategy : Type :=
| AGGRESSIVE   (* 300ms timeout *)
| PATIENT.     (* 35s timeout *)

Definition TimeoutStrategy_eqb (a b : TimeoutStrategy) : bool :=
  match a, b with
  | AGGRESSIVE, AGGRESSIVE | PATIENT, PATIENT => true
  | _, _ => false
  end.

(** The dataclass [CallStats]; [response_times] is already the list
    that [__post_init__] installs. *)
Record CallStats : Type := mkCallStats {
  total_calls : Z;
  total_errors : Z;
  total_success : Z;
  total_time : Q;
  response_times : list Q;
  timeout_strategy : option TimeoutStrategy
}.

(** [CallStats(timeout_strategy=s)] *)
Definition CallStats_new (s : TimeoutStrategy) : CallStats :=
  mkCallStats 0 0 0 (0%Q) [] (Some s).

(** Values produced by [response.json()] and the dictionaries the
    engine builds itself. *)
#[warnings="-register-all"]
Inductive JSON : Type :=
| JNull
| JBool (b : bool)
| JNumber (q : Q)
| JString (s : string)
| JArray (items : list JSON)
| JObject (members : list (string * JSON)).

(** [{"error": msg}] *)
Definition error_dict (msg : string) : JSON :=
  JObject [("error", JString msg)].

(** A raised exception, seen through [isinstance] and [str]. *)
Record exception : Type := mkException {
  is_RequestException : bool;
  is_ValueError : bool;
  str : string
}.

(** What [requests.get] hands back on a completed exchange. *)
Record Response : Type := mkResponse {
  status_code : Z;
  elapsed_total_seconds : Q;
  json : exception + JSON          (* what [response.json()] does *)
}.

(** One HTTP attempt as the outside world decides it: [requests.get]
    raises or returns a response, and [time.time() - start_time] read
    after the response. *)
Record Exchange : Type := mkExchange {
  reply : exception + Response;
  wall_clock : Q
}.

(** The answer to the n-th request, for the url and timeout it is made
    with. *)
Definition World : Type := nat -> string -> Q -> Exchange.

(** Observation counters: HTTP requests issued and engine invocations
    started so far. *)
Record Env : Type := mkEnv {
  http_attempts : nat;
  engine_calls : nat
}.

Definition tick_request (env : Env) : Env :=
  mkEnv (S (http_attempts env)) (engine_calls env).

Definition tick_call (env : Env) : Env :=
  mkEnv (http_attempts env) (S (engine_calls env)).

(** A Python call either returns a value or lets an exception out. *)
Inductive outcome (A : Type) : Type :=
| Returned (a : A)
| Raised (e : exception).
Arguments Returned {A} a.
Arguments Raised {A} e.

(** ** The engine: [make_resilient_call] *)

(** [range(n)] *)
Definition range (n : Z) : list Z :=
  map Z.of_nat (seq 0 (Z.to_nat n)).

(** [a > b] on durations *)
Definition Qgtb (a b : Q) : bool := negb (Qle_bool a b).

(** The [if]/[elif] chain that names the scenario of a response. *)
Definition classify (response : Response) (timeout : Q) : string :=
  if status_code response =? 200 then "success"
  else if status_code response =? 503 then "intermittent_error"
  else if Qgtb (elapsed_total_seconds response) timeout then "slow"
  else if status_code response =? 500 then "error"
  else "failure".

(** The statistics updates of the loop body. *)
Definition record_attempt (stats : CallStats) (elapsed_time : Q) : CallStats :=
  mkCallStats (total_calls stats + 1) (total_errors stats) (total_success stats)
              (total_time stats + elapsed_time)%Q
              (response_times stats ++ [elapsed_time])
              (timeout_strategy stats).

Definition incr_errors (stats : CallStats) : CallStats :=
  mkCallStats (total_calls stats) (total_errors stats + 1) (total_success stats)
              (total_time stats) (response_times stats) (timeout_strategy stats).

Definition incr_success (stats : CallStats) : CallStats :=
  mkCallStats (total_calls stats) (total_errors stats) (total_success stats + 1)
              (total_time stats) (response_times stats) (timeout_strategy stats).

(** How one iteration of the [for] loop ends. *)
Inductive control : Type :=
| Continue (stats : CallStats)            (* on to the next attempt *)
| Return (result : JSON) (stats : CallStats)
| Propagate (e : exception).              (* not matched by [except] *)

(** [except (requests.RequestException, ValueError) as e] *)
Definition caught (e : exception) : bool :=
  is_RequestException e || is_ValueError e.

Definition except_clause (max_retries attempt : Z) (e : exception)
    (stats : CallStats) : control :=
  if caught e then
    let stats := incr_errors stats in
    if attempt =? max_retries - 1 then Return (error_dict (str e)) stats
    else Continue stats
  else Propagate e.

(** The body of the loop for one value of [attempt]; [x] is what the
    world answers to this request.  Mutations of [stats] made before an
    exception is raised are kept, as they are on the Python object. *)
Definition attempt_body (max_retries : Z) (timeout : Q) (attempt : Z)
    (x : Exchange) (stats : CallStats) : control :=
  match reply x with
  | inl e => except_clause max_retries attempt e stats
  | inr response =>
      let scenario := classify response timeout in
      let elapsed_time := wall_clock x in
      let stats := record_attempt stats elapsed_time in
      if String.eqb scenario "intermittent_error" || String.eqb scenario "slow" then
        let stats := incr_errors stats in
        if attempt <? max_retries - 1 then Continue stats
        else Continue stats                (* end of the body *)
      else if String.eqb scenario "error" then
        let stats := incr_errors stats in
        Return (error_dict "Internal Server Error") stats
      else
        let stats := incr_success stats in
        match json response with
        | inr body => Return body stats
        | inl e => except_clause max_retries attempt e stats
        end
  end.

(** The [for attempt in range(max_retries)] loop and the statement after
    it.  Every iteration issues exactly one request. *)
Fixpoint retry_loop (w : World) (url : string) (max_retries : Z) (timeout : Q)
    (attempts : list Z) (env : Env) (stats : CallStats)
    : outcome (JSON * CallStats) * Env :=
  match attempts with
  | [] => (Returned (error_dict "Max retries exceeded", stats), env)
  | attempt :: rest =>
      let x := w (http_attempts env) url timeout in
      let env := tick_request env in
      match attempt_body max_retries timeout attempt x stats with
      | Continue stats => retry_loop w url max_retries timeout rest env stats
      | Return result stats => (Returned (result, stats), env)
      | Propagate e => (Raised e, env)
      end
  end.

Definition timeout_of (timeout_strategy : TimeoutStrategy) : Q :=
  if TimeoutStrategy_eqb timeout_strategy AGGRESSIVE then 3 # 10 else 35.

Definition make_resilient_call (w : World) (url : string) (max_retries : Z)
    (timeout_strategy : TimeoutStrategy) (env : Env)
    : outcome (JSON * CallStats) * Env :=
  let env := tick_call env in
  let stats := CallStats_new timeout_strategy in
  let timeout := timeout_of timeout_strategy in
  retry_loop w url max_retries timeout (range max_retries) env stats.

(** ** The runner: [run_test] *)

(** The five [+=] / [extend] lines that fold one call into the run. *)
Definition accumulate (all_stats call_stats : CallStats) : CallStats :=
  mkCallStats (total_calls all_stats + total_calls call_stats)
              (total_errors all_stats + total_errors call_stats)
              (total_success all_stats + total_success call_stats)
              (total_time all_stats + total_time call_stats)%Q
              (response_times all_stats ++ response_times call_stats)
              (timeout_strategy all_stats).

(** [max_retries] is left to its default in [run_test]. *)
Definition default_max_retries : Z := 3.

Fixpoint run_loop (w : World) (url : string) (timeout_strategy : TimeoutStrategy)
    (calls : list Z) (env : Env) (all_stats : CallStats)
    : outcome CallStats * Env :=
  match calls with
  | [] => (Returned all_stats, env)
  | _ :: rest =>
      match make_resilient_call w url default_max_retries timeout_strategy env with
      | (Returned (_, call_stats), env) =>
          run_loop w url timeout_strategy rest env (accumulate all_stats call_stats)
      | (Raised e, env) => (Raised e, env)
      end
  end.

Definition run_test (w : World) (num_calls : Z)
    (timeout_strategy : TimeoutStrategy) (env : Env) : outcome CallStats * Env :=
  let url := "http://localhost:8080" in
  let all_stats := CallStats_new timeout_strategy in
  run_loop w url timeout_strategy (range num_calls) env all_stats.

(** ** Derived statistics and the report *)

(** Sequencing of calls that may raise. *)
Definition bind {A B : Type} (c : outcome A) (k : A -> outcome B) : outcome B :=
  match c with
  | Returned a => k a
  | Raised e => Raised e
  end.

Notation "x <- c ;; k" := (bind c (fun x => k))
  (at level 61, c at next level, right associativity).

(** Truth value of a list, and [len]. *)
Definition truthy {A : Type} (l : list A) : bool :=
  match l with [] => false | _ :: _ => true end.

Definition len {A : Type} (l : list A) : Z := Z.of_nat (List.length l).

Definition ValueError (msg : string) : exception := mkException false true msg.
Definition AttributeError (msg : string) : exception := mkException false false msg.

(** The builtins [min] and [max]: the first smallest, the first largest. *)
Definition py_min (l : list Q) : outcome Q :=
  match l with
  | [] => Raised (ValueError "min() arg is an empty sequence")
  | x :: rest => Returned (fold_left (fun m y => if Qgtb m y then y else m) rest x)
  end.

Definition py_max (l : list Q) : outcome Q :=
  match l with
  | [] => Raised (ValueError "max() arg is an empty sequence")
  | x :: rest => Returned (fold_left (fun m y => if Qgtb y m then y else m) rest x)
  end.

Section Statistics.

(** [statistics.mean], [statistics.stdev], [np.percentile] and
    [np.median] are library code; each may raise. *)
Variable mean : list Q -> outcome Q.
Variable stdev : list Q -> outcome Q.
Variable np_percentile : list Q -> Z -> outcome Q.
Variable np_median : list Q -> outcome Q.

Definition average_time (self : CallStats) : outcome Q :=
  if truthy (response_times self) then mean (response_times self)
  else Returned 0%Q.

Definition stddev_time (self : CallStats) : outcome Q :=
  if len (response_times self) >? 1 then stdev (response_times self)
  else Returned 0%Q.

Definition percentile_95 (self : CallStats) : outcome Q :=
  if truthy (response_times self) then np_percentile (response_times self) 95
  else Returned 0%Q.

(** [print_statistics], returning the numbers it logs, in order. *)
Definition print_statistics (stats : CallStats) : outcome (list (string * Q)) :=
  _ <- match timeout_strategy stats with
       | Some s => Returned s
       | None => Raised (AttributeError "'NoneType' object has no attribute 'value'")
       end ;;
  let head :=
    [ ("Total calls", inject_Z (total_calls stats));
      ("Total errors", inject_Z (total_errors stats));
      ("Total success", inject_Z (total_success stats));
      ("Total time", total_time stats) ] in
  average <- average_time stats ;;
  deviation <- stddev_time stats ;;
  p95 <- percentile_95 stats ;;
  let derived :=
    [ ("Average time", average);
      ("Standard deviation", deviation);
      ("95th percentile", p95) ] in
  if truthy (response_times stats) then
    lo <- py_min (response_times stats) ;;
    hi <- py_max (response_times stats) ;;
    median <- np_median (response_times stats) ;;
    p75 <- np_percentile (response_times stats) 75 ;;
    p99 <- np_percentile (response_times stats) 99 ;;
    Returned (head ++ derived ++
              [ ("Min", lo); ("Max", hi); ("Median", median);
                ("75th percentile", p75); ("99th percentile", p99) ])
  else Returned (head ++ derived).

End Statistics.

(** ** The entry point: [main] *)

Definition ZeroDivisionError : exception :=
  mkException false false "division by zero".

(** [a / b] on integers: true division, which raises on a zero divisor. *)
Definition true_div (a b : Z) : outcome Q :=
  if b =? 0 then Raised ZeroDivisionError
  else Returned (inject_Z a / inject_Z b)%Q.

Section Main.

Variable mean : list Q -> outcome Q.
Variable stdev : list Q -> outcome Q.
Variable np_percentile : list Q -> Z -> outcome Q.
Variable np_median : list Q -> outcome Q.

(** [main], returning the numbers it logs: the two reports, then the
    three differences.  The aggressive run comes first, on the same
    network. *)
Definition main (w : World) (num_calls : Z) (env : Env)
    : outcome (list (string * Q)) * Env :=
  match run_test w num_calls AGGRESSIVE env with
  | (Raised e, env) => (Raised e, env)
  | (Returned aggressive_stats, env) =>
      match run_test w num_calls PATIENT env with
      | (Raised e, env) => (Raised e, env)
      | (Returned patient_stats, env) =>
          (aggressive_report <-
             print_statistics mean stdev np_percentile np_median aggressive_stats ;;
           patient_report <-
             print_statistics mean stdev np_percentile np_median patient_stats ;;
           let time_difference :=
             (total_time patient_stats - total_time aggressive_stats)%Q in
           patient_rate <-
             true_div (total_success patient_stats) (total_calls patient_stats) ;;
           aggressive_rate <-
             true_div (total_success aggressive_stats) (total_calls aggressive_stats) ;;
           let rate_difference := ((patient_rate - aggressive_rate) * 100)%Q in
           patient_average <- average_time mean patient_stats ;;
           aggressive_average <- average_time mean aggressive_stats ;;
           Returned (aggressive_report ++ patient_report ++
                     [ ("Total time difference", time_difference);
                       ("Success rate difference", rate_difference);
                       ("Average response time difference",
                        (patient_average - aggressive_average)%Q) ]),
           env)
      end
  end.

End Main.

(** ** The test server: [determine_scenario] and [root] *)

Inductive ResponseScenario : Type :=
| NORMAL
| INTERMITTENT_ERROR
| UNEXPECTED_DELAY
| ERROR.

(** [scenario.value] *)
Definition ResponseScenario_value (scenario : ResponseScenario) : string :=
  match scenario with
  | NORMAL => "normal"
  | INTERMITTENT_ERROR => "intermittent_error"
  | UNEXPECTED_DELAY => "unexpected_delay"
  | ERROR => "error"
  end.

(** [a < b] on numbers *)
Definition Qltb (a b : Q) : bool := negb (Qle_bool b a).

(** [determine_scenario], as a function of the number [random.random()]
    draws.  That number is a multiple of 2^-53 in [0, 1); on such numbers
    the comparisons against the float sums [0.10 + 0.05] and
    [0.10 + 0.05 + 0.05] agree with those against 3/20 and 1/5. *)
Definition determine_scenario (value : Q) : ResponseScenario :=
  let INTERMITTENT_ERROR_PROBABILITY := (10 # 100)%Q in
  let UNEXPECTED_DELAY_PROBABILITY := (5 # 100)%Q in
  let ERROR_RATE := (5 # 100)%Q in
  if Qltb value INTERMITTENT_ERROR_PROBABILITY then INTERMITTENT_ERROR
  else if Qltb value (INTERMITTENT_ERROR_PROBABILITY + UNEXPECTED_DELAY_PROBABILITY)
  then UNEXPECTED_DELAY
  else if Qltb value (INTERMITTENT_ERROR_PROBABILITY + UNEXPECTED_DELAY_PROBABILITY
                      + ERROR_RATE)
  then ERROR
  else NORMAL.

(** What the handler does: it sleeps and returns a dictionary, or it
    raises [HTTPException]. *)
Inductive handled : Type :=
| Replied (slept : Q) (body : JSON)
| HTTPException (status_code : Z) (detail : string).

(** [root], as a function of the number drawn by [determine_scenario],
    of the delay [random.expovariate] draws in the normal case, and of
    [round(_, 2)]. *)
Definition root (value delay : Q) (round2 : Q -> Q) : handled :=
  let scenario := determine_scenario value in
  match scenario with
  | INTERMITTENT_ERROR => HTTPException 503 "Service temporarily unavailable"
  | UNEXPECTED_DELAY =>
      Replied 10 (JObject [ ("scenario", JString (ResponseScenario_value scenario));
                            ("message", JString "Hello, World!");
                            ("delay_seconds", JNumber 10) ])
  | ERROR => HTTPException 500 "Internal Server Error"
  | NORMAL =>
      Replied delay
        (JObject [ ("scenario", JString (ResponseScenario_value scenario));
                   ("message", JString "Hello, World!");
                   ("response_time_ms", JNumber (round2 (delay * 1000)%Q)) ])
  end.

(** ** Properties used in the statements *)

(** Left-to-right sum of a list of durations. *)
Definition Qsum (l : list Q) : Q := fold_left Qplus l 0%Q.

(** The accounting invariant of a [CallStats]. *)
Definition stats_invariant (st : CallStats) : Prop :=
  len (response_times st) = total_calls st /\
  (total_time st == Qsum (response_times st))%Q /\
  total_calls st <= total_success st + total_errors st.

(** Every exception the world can raise, from [requests.get] or from
    [response.json()], is a [RequestException] or a [ValueError]. *)
Definition transport_only (w : World) : Prop :=
  forall n url timeout,
    match reply (w n url timeout) with
    | inl e => caught e = true
    | inr response =>
        match json response with
        | inl e => caught e = true
        | inr _ => True
        end
    end.

(** The same, by class: each exception raised by [requests.get] or by
    [response.json()] is an instance of [RequestException] or of
    [ValueError]. *)
Definition transport_failure (e : exception) : Prop :=
  is_RequestException e = true \/ is_ValueError e = true.

Definition raises_transport_failures_only (w : World) : Prop :=
  forall n url timeout,
    match reply (w n url timeout) with
    | inl e => transport_failure e
    | inr response =>
        match json response with
        | inl e => transport_failure e
        | inr _ => True
        end
    end.

(** Every request made to [url] under [timeout] is answered by a
    response with property [P]. *)
Definition every_response (w : World) (url : string) (timeout : Q)
    (P : Response -> Prop) : Prop :=
  forall n, exists r, reply (w n url timeout) = inr r /\ P r.

(** A property of the value a call returns, when it returns one. *)
Definition on_returned {A : Type} (P : A -> Prop) (o : outcome A) : Prop :=
  match o with
  | Returned a => P a
  | Raised _ => True
  end.

(** The call let an exception out. *)
Definition raises {A : Type} (r : outcome A * Env) : Prop :=
  exists e, fst r = Raised e.

(** Number of HTTP requests issued between two observations. *)
Definition attempts_between (before after : Env) : Z :=
  Z.of_nat (http_attempts after) - Z.of_nat (http_attempts before).

(** The loop retries on this response. *)
Definition retryable (r : Response) (timeout : Q) : Prop :=
  classify r timeout = "intermittent_error" \/ classify r timeout = "slow".

(** The response takes the success branch. *)
Definition accepted (r : Response) (timeout : Q) : Prop :=
  classify r timeout = "success" \/ classify r timeout = "failure".

(** The observation [k] requests later. *)
Definition requests_later (k : nat) (env : Env) : Env :=
  mkEnv (http_attempts env + k) (engine_calls env).

(** Every request fails with an exception the [except] clause catches:
    the server cannot be reached. *)
Definition unreachable (w : World) : Prop :=
  forall n url timeout,
  exists e, reply (w n url timeout) = inl e /\ caught e = true.

(** Every request is answered by a response. *)
Definition always_answered (w : World) : Prop :=
  forall n url timeout, exists r, reply (w n url timeout) = inr r.

(** Every body decodes. *)
Definition bodies_decode (w : World) : Prop :=
  forall n url timeout r,
    reply (w n url timeout) = inr r -> exists body, json r = inr body.

(** The counters of [st] against [k] HTTP attempts. *)
Definition counted_within (st : CallStats) (k : Z) : Prop :=
  0 <= total_success st <= total_calls st /\
  total_calls st <= k /\
  0 <= total_errors st <= k /\
  k <= total_success st + total_errors st.

(** Every attempt counted exactly once. *)
Definition counted_once (st : CallStats) (k : Z) : Prop :=
  total_success st + total_errors st = k /\
  0 <= total_success st /\ 0 <= total_errors st.

(** The library functions return within their domains: [mean] and
    [np.median] on a non-empty list, [stdev] on two data points or more,
    [np.percentile] on a non-empty list for a percentile between 0 and
    100. *)
Definition library_total (mean stdev : list Q -> outcome Q)
    (np_percentile : list Q -> Z -> outcome Q)
    (np_median : list Q -> outcome Q) : Prop :=
  (forall l, l <> [] -> exists v, mean l = Returned v) /\
  (forall l, 1 < len l -> exists v, stdev l = Returned v) /\
  (forall l q, l <> [] -> 0 <= q <= 100 ->
     exists v, np_percentile l q = Returned v) /\
  (forall l, l <> [] -> exists v, np_median l = Returned v).

(** The call returned a value. *)
Definition returns {A : Type} (r : outcome A * Env) : Prop :=
  exists a, fst r = Returned a.

(** ** Sample worlds *)

Definition always (x : Exchange) : World := fun _ _ _ => x.

(** The n-th request is answered by the n-th element, the last one
    being repeated. *)
Definition script (first : Exchange) (others : list Exchange) : World :=
  fun n _ _ => nth n (first :: others) (last others first).

Definition hello : JSON :=
  JObject [("scenario", JString "normal"); ("message", JString "Hello, World!")].

Definition JSONDecodeError : exception :=
  mkException true true "Expecting value: line 1 column 1 (char 0)".

(** A plain [ValueError], not a [RequestException]. *)
Definition plain_ValueError : exception :=
  mkException false true "Expecting value: line 1 column 1 (char 0)".

Definition ConnectionError : exception :=
  mkException true false "Connection refused".

Definition KeyboardInterrupt : exception :=
  mkException false false "".

Definition RecursionError : exception :=
  mkException false false "maximum recursion depth exceeded".

Definition answered (status : Z) (elapsed : Q) (body : exception + JSON)
    (wall : Q) : Exchange :=
  mkExchange (inr (mkResponse status elapsed body)) wall.

Definition refused : Exchange := mkExchange (inl ConnectionError) 0%Q.

(** A stand-in for a library function: it raises below [k] data points,
    as [statistics.stdev] does below two, and returns 0 otherwise. *)
Definition StatisticsError : exception :=
  mkException false true "at least two data points are required".

Definition needs_points (k : Z) (l : list Q) : outcome Q :=
  if len l <? k then Raised StatisticsError else Returned 0%Q.

(** A stand-in for [np.percentile]: it raises outside [0, 100] and on an
    empty list. *)
Definition checked_percentile (l : list Q) (q : Z) : outcome Q :=
  if (q <? 0) || (100 <? q)
  then Raised (ValueError "Percentiles must be in the range [0, 100]")
  else needs_points 1 l.

Definition one_sample : CallStats :=
  mkCallStats 1 0 1 (1 # 8) [1 # 8] (Some AGGRESSIVE).

Definition env0 : Env := mkEnv 0 0.

(** ** The accounting in binary64 *)

(** The engine and the runner once more, with the wall-clock durations
    as the binary64 floats that Python adds.  Responses, exceptions,
    classification and counters are those above. *)
Module Float64.

Record CallStats : Type := mkCallStats {
  total_calls : Z;
  total_errors : Z;
  total_success : Z;
  total_time : float;
  response_times : list float;
  timeout_strategy : option TimeoutStrategy
}.

Definition CallStats_new (s : TimeoutStrategy) : CallStats :=
  mkCallStats 0 0 0 0%float [] (Some s).

Record Exchange : Type := mkExchange {
  reply : exception + Response;
  wall_clock : float               (* [time.time() - start_time] *)
}.

Definition World : Type := nat -> string -> Q -> Exchange.

Definition record_attempt (stats : CallStats) (elapsed_time : float) : CallStats :=
  mkCallStats (total_calls stats + 1) (total_errors stats) (total_success stats)
              (total_time stats + elapsed_time)%float
              (response_times stats ++ [elapsed_time])
              (timeout_strategy stats).

Definition incr_errors (stats : CallStats) : CallStats :=
  mkCallStats (total_calls stats) (total_errors stats + 1) (total_success stats)
              (total_time stats) (response_times stats) (timeout_strategy stats).

Definition incr_success (stats : CallStats) : CallStats :=
  mkCallStats (total_calls stats) (total_errors stats) (total_success stats + 1)
              (total_time stats) (response_times stats) (timeout_strategy stats).

Inductive control : Type :=
| Continue (stats : CallStats)
| Return (result : JSON) (stats : CallStats)
| Propagate (e : exception).

Definition except_clause (max_retries attempt : Z) (e : exception)
    (stats : CallStats) : control :=
  if caught e then
    let stats := incr_errors stats in
    if attempt =? max_retries - 1 then Return (error_dict (str e)) stats
    else Continue stats
  else Propagate e.

Definition attempt_body (max_retries : Z) (timeout : Q) (attempt : Z)
    (x : Exchange) (stats : CallStats) : control :=
  match reply x with
  | inl e => except_clause max_retries attempt e stats
  | inr response =>
      let scenario := classify response timeout in
      let elapsed_time := wall_clock x in
      let stats := record_attempt stats elapsed_time in
      if String.eqb scenario "intermittent_error" || String.eqb scenario "slow" then
        let stats := incr_errors stats in
        if attempt <? max_retries - 1 then Continue stats
        else Continue stats
      else if String.eqb scenario "error" then
        let stats := incr_errors stats in
        Return (error_dict "Internal Server Error") stats
      else
        let stats := incr_success stats in
        match json response with
        | inr body => Return body stats
        | inl e => except_clause max_retries attempt e stats
        end
  end.

Fixpoint retry_loop (w : World) (url : string) (max_retries : Z) (timeout : Q)
    (attempts : list Z) (env : Env) (stats : CallStats)
    : outcome (JSON * CallStats) * Env :=
  match attempts with
  | [] => (Returned (error_dict "Max retries exceeded", stats), env)
  | attempt :: rest =>
      let x := w (http_attempts env) url timeout in
      let env := tick_request env in
      match attempt_body max_retries timeout attempt x stats with
      | Continue stats => retry_loop w url max_retries timeout rest env stats
      | Return result stats => (Returned (result, stats), env)
      | Propagate e => (Raised e, env)
      end
  end.

Definition make_resilient_call (w : World) (url : string) (max_retries : Z)
    (timeout_strategy : TimeoutStrategy) (env : Env)
    : outcome (JSON * CallStats) * Env :=
  let env := tick_call env in
  let stats := CallStats_new timeout_strategy in
  let timeout := timeout_of timeout_strategy in
  retry_loop w url max_retries timeout (range max_retries) env stats.

Definition accumulate (all_stats call_stats : CallStats) : CallStats :=
  mkCallStats (total_calls all_stats + total_calls call_stats)
              (total_errors all_stats + total_errors call_stats)
              (total_success all_stats + total_success call_stats)
              (total_time all_stats + total_time call_stats)%float
              (response_times all_stats ++ response_times call_stats)
              (timeout_strategy all_stats).

Fixpoint run_loop (w : World) (url : string) (timeout_strategy : TimeoutStrategy)
    (calls : list Z) (env : Env) (all_stats : CallStats)
    : outcome CallStats * Env :=
  match calls with
  | [] => (Returned all_stats, env)
  | _ :: rest =>
      match make_resilient_call w url default_max_retries timeout_strategy env with
      | (Returned (_, call_stats), env) =>
          run_loop w url timeout_strategy rest env (accumulate all_stats call_stats)
      | (Raised e, env) => (Raised e, env)
      end
  end.

Definition run_test (w : World) (num_calls : Z)
    (timeout_strategy : TimeoutStrategy) (env : Env) : outcome CallStats * Env :=
  let url := "http://localhost:8080" in
  let all_stats := CallStats_new timeout_strategy in
  run_loop w url timeout_strategy (range num_calls) env all_stats.

(** *** Properties used in the statements *)

(** The sum of a list of floats, added left to right from 0.0. *)
Definition fsum (l : list float) : float := fold_left PrimFloat.add l 0%float.

(** The statistics of the logical calls a run folds in, in order. *)
Fixpoint call_stats_of (w : World) (url : string)
    (timeout_strategy : TimeoutStrategy) (calls : list Z) (env : Env)
    : list CallStats :=
  match calls with
  | [] => []
  | _ :: rest =>
      match make_resilient_call w url default_max_retries timeout_strategy env with
      | (Returned (_, call_stats), env) =>
          call_stats :: call_stats_of w url timeout_strategy rest env
      | (Raised _, _) => []
      end
  end.

(** The per-call totals, added left to right from 0.0. *)
Definition subtotals (cs : list CallStats) : float :=
  fold_left (fun acc c => (acc + total_time c)%float) cs 0%float.

(** Length and counters. *)
Definition counted (st : CallStats) : Prop :=
  len (response_times st) = total_calls st /\
  total_calls st <= total_success st + total_errors st.

(** What the statistics of one call satisfy. *)
Definition call_invariant (st : CallStats) : Prop :=
  counted st /\ total_time st = fsum (response_times st).

(** What the statistics of a run satisfy, [cs] being the statistics of
    its calls. *)
Definition run_invariant (cs : list CallStats) (st : CallStats) : Prop :=
  counted st /\
  response_times st = List.concat (map response_times cs) /\
  total_time st = subtotals cs /\
  Forall call_invariant cs.

(** *** Sample worlds *)

Definition answered (status : Z) (wall : float) : Exchange :=
  mkExchange (inr (mkResponse status (1 # 10) (inr hello))) wall.

Definition refused : Exchange := mkExchange (inl ConnectionError) 0%float.

Definition always (x : Exchange) : World := fun _ _ _ => x.

(** A first call answered at once; a second call answered by a 503 and
    then by a 200. *)
Definition two_calls : World :=
  fun n _ _ =>
    match n with
    | 0%nat => answered 200 0.1%float
    | 1%nat => answered 503 0.1%float
    | _ => answered 200 1%float
    end.

End Float64.

(** Reading a field of an updated record. *)
Ltac fields :=
  cbn [record_attempt incr_errors incr_success accumulate CallStats_new
       total_calls total_errors total_success total_time response_times
       timeout_strategy].

(** ** Basic facts *)

Lemma range_nonpos (n : Z) : n <= 0 -> range n = [].
Proof.
  intros Hn. unfold range.
  replace (Z.to_nat n) with 0%nat by lia. reflexivity.
Qed.

Lemma range_pos (n : Z) :
  1 <= n -> range n = 0 :: map Z.of_nat (seq 1 (Z.to_nat (n - 1))).
Proof.
  intros Hn. unfold range.
  replace (Z.to_nat n) with (S (Z.to_nat (n - 1))) by lia.
  reflexivity.
Qed.

Lemma length_range (n : Z) : List.length (range n) = Z.to_nat n.
Proof. unfold range. now rewrite length_map, length_seq. Qed.

Lemma Qgtb_false (a b : Q) : (a <= b)%Q -> Qgtb a b = false.
Proof.
  intros H. unfold Qgtb. apply Qle_bool_iff in H. now rewrite H.
Qed.

Lemma Qgtb_true (a b : Q) : (b < a)%Q -> Qgtb a b = true.
Proof.
  intros H. unfold Qgtb. destruct (Qle_bool a b) eqn:E; [|reflexivity].
  apply Qle_bool_iff in E. exfalso. exact (Qlt_not_le _ _ H E).
Qed.

(** The scenario named by [classify], case by case. *)
Lemma classify_200 (r : Response) (timeout : Q) :
  status_code r = 200 -> classify r timeout = "success".
Proof. intros H. unfold classify. now rewrite H. Qed.

Lemma classify_503 (r : Response) (timeout : Q) :
  status_code r = 503 -> classify r timeout = "intermittent_error".
Proof. intros H. unfold classify. now rewrite H. Qed.

Lemma classify_500_in_time (r : Response) (timeout : Q) :
  status_code r = 500 -> (elapsed_total_seconds r <= timeout)%Q ->
  classify r timeout = "error".
Proof.
  intros H Ht. unfold classify. rewrite H, (Qgtb_false _ _ Ht). reflexivity.
Qed.

Lemma classify_other_in_time (r : Response) (timeout : Q) :
  status_code r <> 200 -> status_code r <> 503 -> status_code r <> 500 ->
  (elapsed_total_seconds r <= timeout)%Q ->
  classify r timeout = "failure".
Proof.
  intros H2 H3 H5 Ht. unfold classify.
  apply Z.eqb_neq in H2, H3, H5.
  rewrite H2, H3, H5, (Qgtb_false _ _ Ht). reflexivity.
Qed.

Lemma classify_cases (r : Response) (timeout : Q) :
  classify r timeout = "success" \/
  classify r timeout = "intermittent_error" \/
  classify r timeout = "slow" \/
  classify r timeout = "error" \/
  classify r timeout = "failure".
Proof.
  unfold classify.
  destruct (status_code r =? 200); [now left|].
  destruct (status_code r =? 503); [now right; left|].
  destruct (Qgtb _ _); [now right; right; left|].
  destruct (status_code r =? 500); [now right; right; right; left|].
  now right; right; right; right.
Qed.

(** ** The classification on small inputs *)

Example classify_slow_200 :
  classify (mkResponse 200 10 (inr hello)) (timeout_of AGGRESSIVE) = "success".
Proof. reflexivity. Qed.

Example classify_slow_500 :
  classify (mkResponse 500 10 (inr hello)) (timeout_of AGGRESSIVE) = "slow".
Proof. reflexivity. Qed.

Example classify_slow_404 :
  classify (mkResponse 404 10 (inr hello)) (timeout_of AGGRESSIVE) = "slow".
Proof. reflexivity. Qed.

Example classify_at_the_limit :
  classify (mkResponse 500 (3 # 10) (inr hello)) (timeout_of AGGRESSIVE) = "error".
Proof. reflexivity. Qed.

(** Two 503 responses, then a 200: the third attempt succeeds. *)
Example retry_then_success :
  exists stats env',
    make_resilient_call
      (script (answered 503 (1 # 10) (inl JSONDecodeError) (1 # 8))
              [answered 503 (1 # 10) (inl JSONDecodeError) (1 # 8);
               answered 200 (1 # 10) (inr hello) (1 # 8)])
      "http://localhost:8080" 3 AGGRESSIVE env0
    = (Returned (hello, stats), env') /\
    attempts_between env0 env' = 3 /\
    total_calls stats = 3 /\ total_errors stats = 2 /\ total_success stats = 1.
Proof. eexists; eexists; split; [reflexivity|]. repeat split. Qed.

(** ** The attempts of one call *)

Lemma retry_loop_attempts (w : World) (url : string) (max_retries : Z)
    (timeout : Q) (attempts : list Z) :
  forall env stats,
    let env' := snd (retry_loop w url max_retries timeout attempts env stats) in
    (http_attempts env <= http_attempts env' <=
       http_attempts env + List.length attempts)%nat /\
    (attempts <> [] -> (http_attempts env + 1 <= http_attempts env')%nat) /\
    engine_calls env' = engine_calls env.
Proof.
  induction attempts as [|attempt rest IH]; intros env stats; cbn.
  - repeat split; try lia. congruence.
  - destruct (attempt_body _ _ _ _ _) as [st|res st|e]; cbn.
    + specialize (IH (tick_request env) st). cbn in IH.
      destruct IH as ((Hlo & Hhi) & _ & Hc).
      repeat split; lia.
    + repeat split; lia.
    + repeat split; lia.
Qed.

(** C4. For every [max_retries >= 1] and every world,
    [make_resilient_call] issues at least one HTTP request and at most
    [max_retries] of them. *)
Theorem attempts_within_budget (w : World) (url : string) (max_retries : Z)
    (timeout_strategy : TimeoutStrategy) (env : Env) :
  1 <= max_retries ->
  1 <= attempts_between env
         (snd (make_resilient_call w url max_retries timeout_strategy env))
    <= max_retries.
Proof.
  intros Hn. unfold make_resilient_call, attempts_between.
  pose proof (retry_loop_attempts w url max_retries (timeout_of timeout_strategy)
                (range max_retries) (tick_call env)
                (CallStats_new timeout_strategy)) as H.
  cbn zeta in H. destruct H as ((_ & Hhi) & Hlo & _).
  rewrite length_range in Hhi. cbn [tick_call http_attempts] in *.
  assert (Hne : range max_retries <> []) by (rewrite range_pos by lia; discriminate).
  specialize (Hlo Hne). lia.
Qed.

Lemma attempts_within_budget_witness :
  1 <= attempts_between env0
         (snd (make_resilient_call (always refused) "http://localhost:8080" 3
                 AGGRESSIVE env0)) <= 3.
Proof. apply (attempts_within_budget (always refused)). lia. Defined.

(** ** Single iterations *)

Lemma attempt_body_503 (max_retries : Z) (timeout : Q) (attempt : Z)
    (x : Exchange) (stats : CallStats) (r : Response) :
  reply x = inr r -> status_code r = 503 ->
  attempt_body max_retries timeout attempt x stats
  = Continue (incr_errors (record_attempt stats (wall_clock x))).
Proof.
  intros Hx Hs. unfold attempt_body. rewrite Hx, (classify_503 _ _ Hs).
  cbn. now destruct (attempt <? max_retries - 1).
Qed.

Lemma attempt_body_500 (max_retries : Z) (timeout : Q) (attempt : Z)
    (x : Exchange) (stats : CallStats) (r : Response) :
  reply x = inr r -> status_code r = 500 ->
  (elapsed_total_seconds r <= timeout)%Q ->
  attempt_body max_retries timeout attempt x stats
  = Return (error_dict "Internal Server Error")
           (incr_errors (record_attempt stats (wall_clock x))).
Proof.
  intros Hx Hs Ht. unfold attempt_body.
  rewrite Hx, (classify_500_in_time _ _ Hs Ht). reflexivity.
Qed.

Lemma attempt_body_else (max_retries : Z) (timeout : Q) (attempt : Z)
    (x : Exchange) (stats : CallStats) (r : Response) :
  reply x = inr r ->
  classify r timeout = "success" \/ classify r timeout = "failure" ->
  attempt_body max_retries timeout attempt x stats
  = match json r with
    | inr body => Return body (incr_success (record_attempt stats (wall_clock x)))
    | inl e => except_clause max_retries attempt e
                 (incr_success (record_attempt stats (wall_clock x)))
    end.
Proof.
  intros Hx Hc. unfold attempt_body. rewrite Hx.
  destruct Hc as [-> | ->]; reflexivity.
Qed.

(** ** Immediate returns *)

(** C1. For every [max_retries >= 1], when every attempt is answered by
    a status-500 response received within the active timeout,
    [make_resilient_call] issues exactly one HTTP request, does not
    retry, and returns the error result with [total_errors = 1] and
    [total_success = 0]. *)
Theorem server_error_no_retry (w : World) (url : string) (max_retries : Z)
    (timeout_strategy : TimeoutStrategy) (env : Env) :
  1 <= max_retries ->
  every_response w url (timeout_of timeout_strategy)
    (fun r => status_code r = 500 /\
              (elapsed_total_seconds r <= timeout_of timeout_strategy)%Q) ->
  exists stats env',
    make_resilient_call w url max_retries timeout_strategy env
    = (Returned (error_dict "Internal Server Error", stats), env') /\
    attempts_between env env' = 1 /\
    total_calls stats = 1 /\ total_errors stats = 1 /\ total_success stats = 0.
Proof.
  intros Hn Hw. unfold make_resilient_call.
  rewrite (range_pos _ Hn). cbn [retry_loop].
  destruct (Hw (http_attempts (tick_call env))) as (r & Hr & Hs & Ht).
  rewrite (attempt_body_500 _ _ _ _ _ r Hr Hs Ht).
  eexists; eexists; split; [reflexivity|].
  unfold attempts_between.
  cbn [tick_request tick_call http_attempts]. repeat split; lia.
Qed.

Lemma server_error_no_retry_witness :
  exists stats env',
    make_resilient_call (always (answered 500 (1 # 10) (inr hello) (1 # 8)))
      "http://localhost:8080" 3 AGGRESSIVE env0
    = (Returned (error_dict "Internal Server Error", stats), env') /\
    attempts_between env0 env' = 1 /\
    total_calls stats = 1 /\ total_errors stats = 1 /\ total_success stats = 0.
Proof.
  apply server_error_no_retry; [lia|].
  intros n. eexists; split; [reflexivity|]. split; [reflexivity|].
  cbn. unfold Qle; cbn. lia.
Defined.

(** The success branch of the loop, for a response the world gives to
    the next request. *)
Lemma retry_loop_else (w : World) (url : string) (max_retries : Z)
    (timeout : Q) (attempt : Z) (rest : list Z) (env : Env) (stats : CallStats)
    (r : Response) :
  let x := w (http_attempts env) url timeout in
  let counted := incr_success (record_attempt stats (wall_clock x)) in
  reply x = inr r ->
  classify r timeout = "success" \/ classify r timeout = "failure" ->
  total_success counted = total_success stats + 1 /\
  total_errors counted = total_errors stats /\
  match json r with
  | inr body =>
      retry_loop w url max_retries timeout (attempt :: rest) env stats
      = (Returned (body, counted), tick_request env)
  | inl e =>
      attempt_body max_retries timeout attempt x stats
      = except_clause max_retries attempt e counted
  end.
Proof.
  intros x counted Hx Hc. split; [reflexivity|]. split; [reflexivity|].
  pose proof (attempt_body_else max_retries timeout attempt x stats r Hx Hc) as Hb.
  cbn [retry_loop]. fold x. rewrite Hb.
  now destruct (json r).
Qed.

(** C5. An attempt answered with status 200 is a success whatever its
    elapsed duration, also beyond the active timeout, because the status
    test comes before the elapsed-time test: [total_success] is
    incremented and the decoded body is returned at once.  (When the
    body does not decode, [response.json()] raises after the increment
    and the [except] clause takes over.) *)
Theorem status_200_wins_over_slow (w : World) (url : string) (max_retries : Z)
    (timeout : Q) (attempt : Z) (rest : list Z) (env : Env) (stats : CallStats)
    (r : Response) :
  let x := w (http_attempts env) url timeout in
  let counted := incr_success (record_attempt stats (wall_clock x)) in
  reply x = inr r ->
  status_code r = 200 ->
  classify r timeout = "success" /\
  total_success counted = total_success stats + 1 /\
  total_errors counted = total_errors stats /\
  match json r with
  | inr body =>
      retry_loop w url max_retries timeout (attempt :: rest) env stats
      = (Returned (body, counted), tick_request env)
  | inl e =>
      attempt_body max_retries timeout attempt x stats
      = except_clause max_retries attempt e counted
  end.
Proof.
  intros x counted Hx Hs. pose proof (classify_200 r timeout Hs) as Hc.
  split; [exact Hc|].
  exact (retry_loop_else w url max_retries timeout attempt rest env stats r
           Hx (or_introl Hc)).
Qed.

Lemma status_200_wins_over_slow_witness :
  (timeout_of AGGRESSIVE < 10)%Q /\
  classify (mkResponse 200 10 (inr hello)) (timeout_of AGGRESSIVE) = "success" /\
  total_success (incr_success (record_attempt (CallStats_new AGGRESSIVE) 11)) = 0 + 1 /\
  total_errors (incr_success (record_attempt (CallStats_new AGGRESSIVE) 11)) = 0 /\
  retry_loop (always (answered 200 10 (inr hello) 11)) "http://localhost:8080" 3
    (timeout_of AGGRESSIVE) [0; 1; 2] env0 (CallStats_new AGGRESSIVE)
  = (Returned (hello, incr_success (record_attempt (CallStats_new AGGRESSIVE) 11)),
     tick_request env0).
Proof.
  split; [reflexivity|].
  apply (status_200_wins_over_slow (always (answered 200 10 (inr hello) 11))
           "http://localhost:8080" 3 (timeout_of AGGRESSIVE) 0 [1; 2] env0
           (CallStats_new AGGRESSIVE) (mkResponse 200 10 (inr hello)));
    reflexivity.
Defined.

(** C10. An attempt answered with a status other than 200, 503 and 500
    (a 404, say) within the active timeout takes the success branch:
    [total_success] is incremented and the decoded body is returned at
    once.  (When the body does not decode, [response.json()] raises
    after the increment and the [except] clause takes over.) *)
Theorem other_status_counts_as_success (w : World) (url : string)
    (max_retries : Z) (timeout : Q) (attempt : Z) (rest : list Z) (env : Env)
    (stats : CallStats) (r : Response) :
  let x := w (http_attempts env) url timeout in
  let counted := incr_success (record_attempt stats (wall_clock x)) in
  reply x = inr r ->
  status_code r <> 200 -> status_code r <> 503 -> status_code r <> 500 ->
  (elapsed_total_seconds r <= timeout)%Q ->
  total_success counted = total_success stats + 1 /\
  total_errors counted = total_errors stats /\
  match json r with
  | inr body =>
      retry_loop w url max_retries timeout (attempt :: rest) env stats
      = (Returned (body, counted), tick_request env)
  | inl e =>
      attempt_body max_retries timeout attempt x stats
      = except_clause max_retries attempt e counted
  end.
Proof.
  intros x counted Hx H2 H3 H5 Ht.
  pose proof (classify_other_in_time r timeout H2 H3 H5 Ht) as Hc.
  exact (retry_loop_else w url max_retries timeout attempt rest env stats r
           Hx (or_intror Hc)).
Qed.

Lemma other_status_counts_as_success_witness :
  total_success (incr_success (record_attempt (CallStats_new AGGRESSIVE) (1 # 8)))
  = 0 + 1 /\
  total_errors (incr_success (record_attempt (CallStats_new AGGRESSIVE) (1 # 8))) = 0 /\
  retry_loop (always (answered 404 (1 # 10) (inr hello) (1 # 8)))
    "http://localhost:8080" 3 (timeout_of AGGRESSIVE) [0; 1; 2] env0
    (CallStats_new AGGRESSIVE)
  = (Returned (hello, incr_success (record_attempt (CallStats_new AGGRESSIVE) (1 # 8))),
     tick_request env0).
Proof.
  apply (other_status_counts_as_success
           (always (answered 404 (1 # 10) (inr hello) (1 # 8)))
           "http://localhost:8080" 3 (timeout_of AGGRESSIVE) 0 [1; 2] env0
           (CallStats_new AGGRESSIVE) (mkResponse 404 (1 # 10) (inr hello)));
    try reflexivity; discriminate.
Defined.

(** ** Retry exhaustion *)

(** C3. With [max_retries = 3] and every attempt answered by a
    status-503 response, [make_resilient_call] returns the retry
    exhaustion result, which differs from the server-error result, with
    [total_calls = 3], [total_errors = 3] and [total_success = 0]. *)
Theorem retries_exhausted_on_503 (w : World) (url : string)
    (timeout_strategy : TimeoutStrategy) (env : Env) :
  every_response w url (timeout_of timeout_strategy)
    (fun r => status_code r = 503) ->
  exists stats env',
    make_resilient_call w url 3 timeout_strategy env
    = (Returned (error_dict "Max retries exceeded", stats), env') /\
    error_dict "Max retries exceeded" <> error_dict "Internal Server Error" /\
    attempts_between env env' = 3 /\
    total_calls stats = 3 /\ total_errors stats = 3 /\ total_success stats = 0.
Proof.
  intros Hw. unfold make_resilient_call.
  change (range 3) with [0; 1; 2]. cbn [retry_loop].
  repeat match goal with
  | |- context [attempt_body _ _ _ (w ?n _ _) _] =>
      let r := fresh "r" in
      let Hr := fresh "Hr" in
      let Hs := fresh "Hs" in
      destruct (Hw n) as (r & Hr & Hs);
      rewrite (attempt_body_503 _ _ _ _ _ r Hr Hs); clear Hr Hs
  end.
  eexists; eexists; split; [reflexivity|].
  split; [discriminate|].
  unfold attempts_between.
  cbn [tick_request tick_call http_attempts]. repeat split; lia.
Qed.

Lemma retries_exhausted_on_503_witness :
  exists stats env',
    make_resilient_call (always (answered 503 (1 # 10) (inl JSONDecodeError) (1 # 8)))
      "http://localhost:8080" 3 PATIENT env0
    = (Returned (error_dict "Max retries exceeded", stats), env') /\
    error_dict "Max retries exceeded" <> error_dict "Internal Server Error" /\
    attempts_between env0 env' = 3 /\
    total_calls stats = 3 /\ total_errors stats = 3 /\ total_success stats = 0.
Proof.
  apply retries_exhausted_on_503.
  intros n. eexists; split; reflexivity.
Defined.

(** ** No exception leaves the engine *)

Lemma attempt_body_catches (max_retries : Z) (timeout : Q) (attempt : Z)
    (x : Exchange) (stats : CallStats) :
  match reply x with
  | inl e => caught e = true
  | inr response =>
      match json response with
      | inl e => caught e = true
      | inr _ => True
      end
  end ->
  forall e, attempt_body max_retries timeout attempt x stats <> Propagate e.
Proof.
  intros Hx e. unfold attempt_body, except_clause.
  destruct (reply x) as [e0|r].
  - rewrite Hx. destruct (attempt =? max_retries - 1); discriminate.
  - destruct (classify_cases r timeout) as [-> | [-> | [-> | [-> | ->]]]];
      cbn [String.eqb Ascii.eqb Bool.eqb orb andb];
      try (destruct (attempt <? max_retries - 1); discriminate);
      try discriminate;
      destruct (json r) as [e0|body]; try discriminate;
      rewrite Hx; destruct (attempt =? max_retries - 1); discriminate.
Qed.

Lemma retry_loop_returns (w : World) (url : string) (max_retries : Z)
    (timeout : Q) :
  transport_only w ->
  forall attempts env stats,
  exists result stats' env',
    retry_loop w url max_retries timeout attempts env stats
    = (Returned (result, stats'), env').
Proof.
  intros Hw attempts. induction attempts as [|attempt rest IH]; intros env stats.
  - cbn. eauto.
  - cbn [retry_loop].
    pose proof (attempt_body_catches max_retries timeout attempt
                  (w (http_attempts env) url timeout) stats
                  (Hw (http_attempts env) url timeout)) as Hc.
    destruct (attempt_body _ _ _ _ _) as [st|res st|e].
    + apply IH.
    + eauto.
    + now destruct (Hc e).
Qed.

(** C6, amended. Whatever the url, the retry budget and the strategy,
    for every sequence of attempt outcomes in which each exception
    raised by [requests.get] or by [response.json()] is a
    [RequestException] or a [ValueError], on every attempt if need be,
    [make_resilient_call] returns a (result, CallStats) pair: no
    exception leaves it. *)
Theorem never_raises (w : World) (url : string) (max_retries : Z)
    (timeout_strategy : TimeoutStrategy) (env : Env) :
  raises_transport_failures_only w ->
  exists result stats env',
    make_resilient_call w url max_retries timeout_strategy env
    = (Returned (result, stats), env').
Proof.
  intros Hw. unfold make_resilient_call. apply retry_loop_returns.
  intros n url0 timeout. specialize (Hw n url0 timeout).
  unfold transport_failure, caught in *.
  destruct (reply (w n url0 timeout)) as [e|r].
  - now apply orb_true_iff.
  - destruct (json r) as [e|body]; [now apply orb_true_iff | exact I].
Qed.

Lemma transport_only_always (x : Exchange) :
  match reply x with
  | inl e => caught e = true
  | inr response =>
      match json response with
      | inl e => caught e = true
      | inr _ => True
      end
  end ->
  transport_only (always x).
Proof. intros H n url timeout. exact H. Qed.

Lemma never_raises_witness :
  (exists result stats env',
     make_resilient_call (always refused) "http://localhost:8080" 3 AGGRESSIVE env0
     = (Returned (result, stats), env')) /\
  (exists result stats env',
     make_resilient_call
       (always (answered 200 (1 # 10) (inl plain_ValueError) (1 # 8)))
       "http://localhost:8080" 3 AGGRESSIVE env0
     = (Returned (result, stats), env')).
Proof.
  split; apply never_raises; intros n url timeout.
  - left; reflexivity.
  - right; reflexivity.
Defined.

(** C6, as stated, fails: the [except] clause names two classes only.
    A [KeyboardInterrupt] raised while the request is in flight and a
    [RecursionError] raised by [response.json()] on a deeply nested body
    both leave [make_resilient_call]. *)
Lemma exception_escapes_engine :
  raises (make_resilient_call (always (mkExchange (inl KeyboardInterrupt) 0%Q))
            "http://localhost:8080" 3 AGGRESSIVE env0) /\
  raises (make_resilient_call
            (always (answered 200 (1 # 10) (inl RecursionError) (1 # 8)))
            "http://localhost:8080" 3 AGGRESSIVE env0).
Proof. split; eexists; reflexivity. Qed.

(** An exception of another class does leave the engine. *)
Example uncaught_class_propagates :
  fst (make_resilient_call (always (mkExchange (inl KeyboardInterrupt) 0%Q))
         "http://localhost:8080" 3 AGGRESSIVE env0)
  = Raised KeyboardInterrupt.
Proof. reflexivity. Qed.

(** ** The accounting invariant *)

Lemma Qsum_from (l : list Q) : forall a, (fold_left Qplus l a == a + Qsum l)%Q.
Proof.
  unfold Qsum. induction l as [|x l IH]; intros a; cbn [fold_left].
  - ring.
  - rewrite (IH (a + x)%Q), (IH (0 + x)%Q). ring.
Qed.

Lemma Qsum_app (l1 l2 : list Q) : (Qsum (l1 ++ l2) == Qsum l1 + Qsum l2)%Q.
Proof.
  unfold Qsum at 1. rewrite fold_left_app. apply Qsum_from.
Qed.

Lemma Qsum_snoc (l : list Q) (x : Q) : Qsum (l ++ [x]) = (Qsum l + x)%Q.
Proof. unfold Qsum. now rewrite fold_left_app. Qed.

Lemma len_app {A : Type} (l1 l2 : list A) : len (l1 ++ l2) = len l1 + len l2.
Proof. unfold len. rewrite length_app. lia. Qed.

Lemma invariant_new (s : TimeoutStrategy) : stats_invariant (CallStats_new s).
Proof. split; [|split]; fields; [reflexivity | reflexivity | lia]. Qed.

Lemma invariant_incr_errors (st : CallStats) :
  stats_invariant st -> stats_invariant (incr_errors st).
Proof.
  intros (Hl & Ht & Hc). split; [|split]; fields; [exact Hl | exact Ht | lia].
Qed.

Lemma invariant_recorded_error (st : CallStats) (x : Q) :
  stats_invariant st -> stats_invariant (incr_errors (record_attempt st x)).
Proof.
  intros (Hl & Ht & Hc). split; [|split]; fields.
  - rewrite len_app. change (len [x]) with 1. lia.
  - rewrite Qsum_snoc, Ht. reflexivity.
  - lia.
Qed.

Lemma invariant_recorded_success (st : CallStats) (x : Q) :
  stats_invariant st -> stats_invariant (incr_success (record_attempt st x)).
Proof.
  intros (Hl & Ht & Hc). split; [|split]; fields.
  - rewrite len_app. change (len [x]) with 1. lia.
  - rewrite Qsum_snoc, Ht. reflexivity.
  - lia.
Qed.

Lemma invariant_accumulate (all_stats call_stats : CallStats) :
  stats_invariant all_stats -> stats_invariant call_stats ->
  stats_invariant (accumulate all_stats call_stats).
Proof.
  intros (Hl & Ht & Hc) (Hl' & Ht' & Hc'). split; [|split]; fields.
  - rewrite len_app. lia.
  - rewrite Qsum_app, Ht, Ht'. reflexivity.
  - lia.
Qed.

Create HintDb accounting.
#[local] Hint Resolve invariant_new invariant_incr_errors invariant_recorded_error
  invariant_recorded_success invariant_accumulate : accounting.

Lemma invariant_except_clause (max_retries attempt : Z) (e : exception)
    (st : CallStats) :
  stats_invariant st ->
  match except_clause max_retries attempt e st with
  | Continue st' | Return _ st' => stats_invariant st'
  | Propagate _ => True
  end.
Proof.
  intros H. unfold except_clause.
  destruct (caught e); [|exact I].
  destruct (attempt =? max_retries - 1); auto with accounting.
Qed.

Lemma invariant_attempt_body (max_retries : Z) (timeout : Q) (attempt : Z)
    (x : Exchange) (st : CallStats) :
  stats_invariant st ->
  match attempt_body max_retries timeout attempt x st with
  | Continue st' | Return _ st' => stats_invariant st'
  | Propagate _ => True
  end.
Proof.
  intros H. unfold attempt_body.
  destruct (reply x) as [e|r]; [now apply invariant_except_clause|].
  destruct (classify_cases r timeout) as [-> | [-> | [-> | [-> | ->]]]];
    cbn [String.eqb Ascii.eqb Bool.eqb orb andb];
    try (destruct (attempt <? max_retries - 1); now auto with accounting);
    try (now auto with accounting);
    (destruct (json r) as [e|body];
     [apply invariant_except_clause|]; auto with accounting).
Qed.

Lemma invariant_retry_loop (w : World) (url : string) (max_retries : Z)
    (timeout : Q) (attempts : list Z) :
  forall env st,
    stats_invariant st ->
    on_returned (fun p => stats_invariant (snd p))
      (fst (retry_loop w url max_retries timeout attempts env st)).
Proof.
  induction attempts as [|attempt rest IH]; intros env st H; cbn [retry_loop].
  - exact H.
  - pose proof (invariant_attempt_body max_retries timeout attempt
                  (w (http_attempts env) url timeout) st H) as Hb.
    destruct (attempt_body _ _ _ _ _) as [st'|res st'|e]; cbn.
    + now apply IH.
    + exact Hb.
    + exact I.
Qed.

Lemma invariant_make_resilient_call (w : World) (url : string)
    (max_retries : Z) (timeout_strategy : TimeoutStrategy) (env : Env) :
  on_returned (fun p => stats_invariant (snd p))
    (fst (make_resilient_call w url max_retries timeout_strategy env)).
Proof.
  unfold make_resilient_call. apply invariant_retry_loop, invariant_new.
Qed.

Lemma invariant_run_loop (w : World) (url : string)
    (timeout_strategy : TimeoutStrategy) (calls : list Z) :
  forall env all_stats,
    stats_invariant all_stats ->
    on_returned stats_invariant
      (fst (run_loop w url timeout_strategy calls env all_stats)).
Proof.
  induction calls as [|i rest IH]; intros env all_stats H; cbn [run_loop].
  - exact H.
  - pose proof (invariant_make_resilient_call w url default_max_retries
                  timeout_strategy env) as Hc.
    destruct (make_resilient_call _ _ _ _ _) as [[[res st]|e] env'].
    + apply IH. cbn in Hc. auto with accounting.
    + exact I.
Qed.

(** In exact arithmetic, where addition is associative, the total of
    a run is also the sum of all its response times; the binary64
    accounting is treated at the end of the file. *)
Lemma exact_arithmetic_invariant (w : World) (url : string) (max_retries : Z)
    (num_calls : Z) (timeout_strategy : TimeoutStrategy) (env : Env) :
  on_returned (fun p => stats_invariant (snd p))
    (fst (make_resilient_call w url max_retries timeout_strategy env)) /\
  on_returned stats_invariant
    (fst (run_test w num_calls timeout_strategy env)) /\
  on_returned
    (fun p => total_calls (snd p) = 0 /\ total_errors (snd p) = 3 /\
              total_success (snd p) = 0 /\ response_times (snd p) = [])
    (fst (make_resilient_call (always refused) url 3 timeout_strategy env)).
Proof.
  split; [apply invariant_make_resilient_call|]. split.
  - unfold run_test. apply invariant_run_loop, invariant_new.
  - cbn. repeat split.
Qed.

(** Under transport failures only, a call with the default budget
    returns and counts as one engine invocation. *)
Lemma default_call_returns (w : World) (url : string)
    (timeout_strategy : TimeoutStrategy) (env : Env) :
  transport_only w ->
  exists result stats env',
    make_resilient_call w url default_max_retries timeout_strategy env
    = (Returned (result, stats), env') /\
    engine_calls env' = S (engine_calls env).
Proof.
  intros Hw. unfold make_resilient_call.
  destruct (retry_loop_returns w url default_max_retries
              (timeout_of timeout_strategy) Hw (range default_max_retries)
              (tick_call env) (CallStats_new timeout_strategy))
    as (res & st & env' & E).
  exists res, st, env'. split; [exact E|].
  pose proof (retry_loop_attempts w url default_max_retries
                (timeout_of timeout_strategy) (range default_max_retries)
                (tick_call env) (CallStats_new timeout_strategy)) as H.
  cbn zeta in H. rewrite E in H. destruct H as (_ & _ & H). exact H.
Qed.

(** Under transport failures only, a run performs each of its logical
    calls and returns. *)
Lemma run_loop_completes (w : World) (url : string)
    (timeout_strategy : TimeoutStrategy) (calls : list Z) :
  transport_only w ->
  forall env all_stats,
  exists stats env',
    run_loop w url timeout_strategy calls env all_stats = (Returned stats, env') /\
    engine_calls env' = (engine_calls env + List.length calls)%nat.
Proof.
  intros Hw. induction calls as [|i rest IH]; intros env all_stats; cbn [run_loop].
  - exists all_stats, env. split; [reflexivity|]. cbn. lia.
  - destruct (default_call_returns w url timeout_strategy env Hw)
      as (res & st & env1 & E & Hc).
    rewrite E. destruct (IH env1 (accumulate all_stats st)) as (st' & env' & E' & Hc').
    exists st', env'. split; [exact E'|]. cbn [List.length]. lia.
Qed.

Lemma run_test_completes (w : World) (num_calls : Z)
    (timeout_strategy : TimeoutStrategy) (env : Env) :
  transport_only w ->
  exists stats env',
    run_test w num_calls timeout_strategy env = (Returned stats, env') /\
    engine_calls env' = (engine_calls env + Z.to_nat num_calls)%nat.
Proof.
  intros Hw. unfold run_test. rewrite <- (length_range num_calls).
  now apply run_loop_completes.
Qed.

(** ** Body-decode failures *)

(** What the loop body does with a response that takes the success
    branch and whose body does not decode: the success counter has
    already been incremented when [response.json()] raises. *)
Lemma decode_failure_step (max_retries : Z) (timeout : Q) (attempt : Z)
    (x : Exchange) (stats : CallStats) (r : Response) (e : exception) :
  reply x = inr r -> status_code r = 200 ->
  json r = inl e -> caught e = true ->
  attempt_body max_retries timeout attempt x stats
  = let stats := incr_errors (incr_success (record_attempt stats (wall_clock x))) in
    if attempt =? max_retries - 1 then Return (error_dict (str e)) stats
    else Continue stats.
Proof.
  intros Hx Hs Hj Hc.
  rewrite (attempt_body_else _ _ _ _ _ r Hx (or_introl (classify_200 r timeout Hs))).
  rewrite Hj. unfold except_clause. rewrite Hc. reflexivity.
Qed.

(** C2. On a status-200 response whose body fails to decode, the code
    increments [total_errors] and returns the transport-failure result on
    the last attempt, but it has counted the attempt as a success too:
    with one allowed attempt the returned statistics read
    [total_calls = 1], [total_success = 1], [total_errors = 1]. *)
Theorem decode_failure_also_counted_as_success :
  exists stats env',
    make_resilient_call
      (always (answered 200 (1 # 10) (inl JSONDecodeError) (1 # 8)))
      "http://localhost:8080" 1 AGGRESSIVE env0
    = (Returned (error_dict (str JSONDecodeError), stats), env') /\
    total_calls stats = 1 /\ total_success stats = 1 /\ total_errors stats = 1.
Proof.
  eexists; eexists; split; [reflexivity|]. repeat split.
Qed.

(** ** Parameters are not validated *)

(** C7, as stated, fails: a run of zero logical calls and a call with a
    retry budget of -1 both return normally; no configuration error is
    raised. *)
Lemma nonpositive_parameters_accepted :
  (0 <= 0 /\ ~ raises (run_test (always refused) 0 AGGRESSIVE env0)) /\
  (-1 <= 0 /\
   ~ raises (make_resilient_call (always refused) "http://localhost:8080" (-1)
               AGGRESSIVE env0)).
Proof.
  split; (split; [lia|]); intros (e & He); discriminate He.
Qed.

(** C7, amended. No parameter is checked.  With a non-positive number of
    logical calls [run_test] invokes the engine not at all and returns
    the empty run-level statistics; with a non-positive retry budget
    [make_resilient_call] issues no request and returns the retry
    exhaustion result with empty statistics; the timeout of a strategy is
    not a parameter: it is the constant 0.3 s for the aggressive strategy
    and 35 s for the patient one, both positive. *)
Theorem nonpositive_parameters_run_empty (w : World) (url : string)
    (num_calls max_retries : Z) (timeout_strategy : TimeoutStrategy) (env : Env) :
  num_calls <= 0 -> max_retries <= 0 ->
  run_test w num_calls timeout_strategy env
  = (Returned (CallStats_new timeout_strategy), env) /\
  make_resilient_call w url max_retries timeout_strategy env
  = (Returned (error_dict "Max retries exceeded", CallStats_new timeout_strategy),
     tick_call env) /\
  timeout_of timeout_strategy
  = match timeout_strategy with
    | AGGRESSIVE => (3 # 10)%Q
    | PATIENT => 35%Q
    end /\
  (0 < timeout_of timeout_strategy)%Q.
Proof.
  intros Hn Hm. unfold run_test, make_resilient_call.
  rewrite (range_nonpos _ Hn), (range_nonpos _ Hm).
  repeat split; now destruct timeout_strategy.
Qed.

Lemma nonpositive_parameters_run_empty_witness :
  run_test (always refused) (-2) PATIENT env0
  = (Returned (CallStats_new PATIENT), env0) /\
  make_resilient_call (always refused) "http://localhost:8080" 0 PATIENT env0
  = (Returned (error_dict "Max retries exceeded", CallStats_new PATIENT),
     tick_call env0) /\
  timeout_of PATIENT = 35%Q /\
  (0 < timeout_of PATIENT)%Q.
Proof.
  apply (nonpositive_parameters_run_empty (always refused)); lia.
Defined.

(** ** The empty run *)

(** C8. For every strategy, [run_test 0] invokes the engine not at all
    and returns run-level statistics with all counters 0, [total_time]
    0 and no response time; on them the mean, the sample standard
    deviation and the 95th percentile evaluate to 0 without raising,
    whatever the library functions do on an empty list, and the report
    lists zeros only. *)
Theorem empty_run_statistics (w : World) (timeout_strategy : TimeoutStrategy)
    (env : Env) (mean stdev : list Q -> outcome Q)
    (np_percentile : list Q -> Z -> outcome Q)
    (np_median : list Q -> outcome Q) :
  exists stats,
    run_test w 0 timeout_strategy env = (Returned stats, env) /\
    total_calls stats = 0 /\ total_errors stats = 0 /\ total_success stats = 0 /\
    total_time stats = 0%Q /\ response_times stats = [] /\
    average_time mean stats = Returned 0%Q /\
    stddev_time stdev stats = Returned 0%Q /\
    percentile_95 np_percentile stats = Returned 0%Q /\
    print_statistics mean stdev np_percentile np_median stats
    = Returned [ ("Total calls", 0%Q); ("Total errors", 0%Q);
                 ("Total success", 0%Q); ("Total time", 0%Q);
                 ("Average time", 0%Q); ("Standard deviation", 0%Q);
                 ("95th percentile", 0%Q) ].
Proof.
  exists (CallStats_new timeout_strategy). repeat split.
Qed.

(** ** Retried attempts *)

Lemma requests_later_0 (env : Env) : requests_later 0 env = env.
Proof. destruct env as [h c]. unfold requests_later. cbn. now rewrite Nat.add_0_r. Qed.

Lemma requests_later_S (k : nat) (env : Env) :
  requests_later (S k) env = requests_later k (tick_request env).
Proof. unfold requests_later. cbn. now rewrite Nat.add_succ_r. Qed.

Lemma attempts_between_later (k : nat) (env : Env) :
  attempts_between env (requests_later k env) = Z.of_nat k.
Proof. unfold attempts_between, requests_later. cbn [http_attempts]. lia. Qed.

Lemma range_split (n : Z) (k : nat) :
  Z.of_nat k < n ->
  range n = map Z.of_nat (seq 0 k) ++
            Z.of_nat k :: map Z.of_nat (seq (S k) (Z.to_nat n - S k)).
Proof.
  intros Hk. unfold range.
  replace (Z.to_nat n) with (k + S (Z.to_nat n - S k))%nat at 1 by lia.
  rewrite seq_app, map_app. reflexivity.
Qed.

Lemma attempt_body_retryable (max_retries : Z) (timeout : Q) (attempt : Z)
    (x : Exchange) (stats : CallStats) (r : Response) :
  reply x = inr r -> retryable r timeout ->
  attempt_body max_retries timeout attempt x stats
  = Continue (incr_errors (record_attempt stats (wall_clock x))).
Proof.
  intros Hx Hr. unfold attempt_body. rewrite Hx.
  destruct Hr as [-> | ->]; cbn; now destruct (attempt <? max_retries - 1).
Qed.

(** A run of retryable responses moves the loop forward by as many
    attempts, each counted as one call and one error. *)
Lemma retry_loop_retries (w : World) (url : string) (max_retries : Z)
    (timeout : Q) (pre : list Z) :
  forall rest env stats,
    (forall i, (i < List.length pre)%nat ->
       exists r, reply (w (http_attempts env + i)%nat url timeout) = inr r /\
                 retryable r timeout) ->
    exists stats',
      retry_loop w url max_retries timeout (pre ++ rest) env stats
      = retry_loop w url max_retries timeout rest
          (requests_later (List.length pre) env) stats' /\
      total_calls stats' = total_calls stats + len pre /\
      total_errors stats' = total_errors stats + len pre /\
      total_success stats' = total_success stats /\
      timeout_strategy stats' = timeout_strategy stats.
Proof.
  induction pre as [|attempt pre IH]; intros rest env stats Hw.
  - exists stats. rewrite requests_later_0. unfold len. cbn. repeat split; lia.
  - destruct (Hw 0%nat) as (r & Hr & Hc); [cbn; lia|].
    rewrite Nat.add_0_r in Hr.
    cbn [app retry_loop]. rewrite (attempt_body_retryable _ _ _ _ _ r Hr Hc).
    destruct (IH rest (tick_request env)
                (incr_errors (record_attempt stats
                   (wall_clock (w (http_attempts env) url timeout)))))
      as (stats' & E & H1 & H2 & H3 & H4).
    { intros i Hi. destruct (Hw (S i)) as (r' & Hr' & Hc'); [cbn; lia|].
      exists r'. split; [|exact Hc'].
      cbn [tick_request http_attempts].
      now replace (S (http_attempts env) + i)%nat
        with (http_attempts env + S i)%nat by lia. }
    exists stats'. cbn [List.length]. rewrite requests_later_S.
    split; [exact E|].
    revert H1 H2 H3 H4. unfold len. fields. cbn [List.length]. intros.
    repeat split; try lia. congruence.
Qed.

(** X1. A response that is neither a 200 nor a 503 and whose elapsed
    time exceeds the timeout is retried whatever its status, a 500
    included: the loop records one call and one error and goes on with
    the next attempt. *)
Theorem slow_response_retried (w : World) (url : string) (max_retries : Z)
    (timeout : Q) (attempt : Z) (rest : list Z) (env : Env) (stats : CallStats)
    (r : Response) :
  let x := w (http_attempts env) url timeout in
  reply x = inr r ->
  status_code r <> 200 -> status_code r <> 503 ->
  (timeout < elapsed_total_seconds r)%Q ->
  classify r timeout = "slow" /\
  retry_loop w url max_retries timeout (attempt :: rest) env stats
  = retry_loop w url max_retries timeout rest (tick_request env)
      (incr_errors (record_attempt stats (wall_clock x))).
Proof.
  intros x Hx H2 H3 Ht.
  assert (Hc : classify r timeout = "slow").
  { unfold classify. apply Z.eqb_neq in H2, H3.
    now rewrite H2, H3, (Qgtb_true _ _ Ht). }
  split; [exact Hc|]. cbn [retry_loop]. fold x.
  now rewrite (attempt_body_retryable _ _ _ _ _ r Hx (or_intror Hc)).
Qed.

Lemma slow_response_retried_witness :
  classify (mkResponse 500 10 (inr hello)) (timeout_of AGGRESSIVE) = "slow" /\
  retry_loop (always (answered 500 10 (inr hello) 11)) "http://localhost:8080" 3
    (timeout_of AGGRESSIVE) [0; 1; 2] env0 (CallStats_new AGGRESSIVE)
  = retry_loop (always (answered 500 10 (inr hello) 11)) "http://localhost:8080" 3
      (timeout_of AGGRESSIVE) [1; 2] (tick_request env0)
      (incr_errors (record_attempt (CallStats_new AGGRESSIVE) 11)).
Proof.
  apply (slow_response_retried (always (answered 500 10 (inr hello) 11))
           "http://localhost:8080" 3 (timeout_of AGGRESSIVE) 0 [1; 2] env0
           (CallStats_new AGGRESSIVE) (mkResponse 500 10 (inr hello)));
    try reflexivity; discriminate.
Defined.

(** X2. When the first [k] responses are retryable (503 or slow), with
    [k] below the retry budget, and the next one takes the success branch
    with a decodable body, the call returns that body after [k + 1]
    requests, with [total_calls = k + 1], [total_errors = k] and
    [total_success = 1]. *)
Theorem retry_until_success (w : World) (url : string) (max_retries : Z)
    (timeout_strategy : TimeoutStrategy) (env : Env) (k : nat)
    (r : Response) (body : JSON) :
  Z.of_nat k < max_retries ->
  (forall i, (i < k)%nat ->
     exists r', reply (w (http_attempts env + i)%nat url (timeout_of timeout_strategy))
                = inr r' /\ retryable r' (timeout_of timeout_strategy)) ->
  reply (w (http_attempts env + k)%nat url (timeout_of timeout_strategy)) = inr r ->
  accepted r (timeout_of timeout_strategy) ->
  json r = inr body ->
  exists stats env',
    make_resilient_call w url max_retries timeout_strategy env
    = (Returned (body, stats), env') /\
    attempts_between env env' = Z.of_nat k + 1 /\
    total_calls stats = Z.of_nat k + 1 /\
    total_errors stats = Z.of_nat k /\
    total_success stats = 1.
Proof.
  intros Hk Hpre Hr Ha Hj. unfold make_resilient_call.
  rewrite (range_split _ _ Hk).
  destruct (retry_loop_retries w url max_retries (timeout_of timeout_strategy)
              (map Z.of_nat (seq 0 k))
              (Z.of_nat k :: map Z.of_nat (seq (S k) (Z.to_nat max_retries - S k)))
              (tick_call env) (CallStats_new timeout_strategy))
    as (st & E & H1 & H2 & H3 & _).
  { rewrite length_map, length_seq. exact Hpre. }
  rewrite E. rewrite length_map, length_seq in *.
  pose proof (retry_loop_else w url max_retries (timeout_of timeout_strategy)
                (Z.of_nat k)
                (map Z.of_nat (seq (S k) (Z.to_nat max_retries - S k)))
                (requests_later k (tick_call env)) st r) as He.
  cbn zeta in He. cbn [requests_later tick_call http_attempts] in He.
  specialize (He Hr Ha). destruct He as (Hs & He & Hm). rewrite Hj in Hm.
  cbn [requests_later tick_call http_attempts]. rewrite Hm.
  eexists; eexists; split; [reflexivity|].
  unfold len in *. rewrite length_map, length_seq in *.
  revert H1 H2 H3 Hs He. fields. unfold attempts_between.
  cbn [tick_request requests_later tick_call http_attempts].
  intros. repeat split; lia.
Qed.

Lemma retry_until_success_witness :
  exists stats env',
    make_resilient_call
      (script (answered 503 (1 # 10) (inl JSONDecodeError) (1 # 8))
              [answered 500 10 (inr hello) 11;
               answered 200 (1 # 10) (inr hello) (1 # 8)])
      "http://localhost:8080" 3 AGGRESSIVE env0
    = (Returned (hello, stats), env') /\
    attempts_between env0 env' = Z.of_nat 2 + 1 /\
    total_calls stats = Z.of_nat 2 + 1 /\
    total_errors stats = Z.of_nat 2 /\
    total_success stats = 1.
Proof.
  apply (retry_until_success _ "http://localhost:8080" 3 AGGRESSIVE env0 2
           (mkResponse 200 (1 # 10) (inr hello)) hello).
  - lia.
  - intros i Hi. destruct i as [|[|i]].
    + eexists; split; [reflexivity|]. left; reflexivity.
    + eexists; split; [reflexivity|]. right; reflexivity.
    + lia.
  - reflexivity.
  - left; reflexivity.
  - reflexivity.
Defined.

(** X3. For every retry budget, when each attempt is answered by a
    retryable response (503 or slow), the call ends with the retry
    exhaustion result after exactly [max_retries] requests, each counted
    as one call and one error and none as a success. *)
Theorem retries_exhausted (w : World) (url : string) (max_retries : Z)
    (timeout_strategy : TimeoutStrategy) (env : Env) :
  0 <= max_retries ->
  (forall i, (i < Z.to_nat max_retries)%nat ->
     exists r, reply (w (http_attempts env + i)%nat url (timeout_of timeout_strategy))
               = inr r /\ retryable r (timeout_of timeout_strategy)) ->
  exists stats env',
    make_resilient_call w url max_retries timeout_strategy env
    = (Returned (error_dict "Max retries exceeded", stats), env') /\
    attempts_between env env' = max_retries /\
    total_calls stats = max_retries /\
    total_errors stats = max_retries /\
    total_success stats = 0.
Proof.
  intros Hn Hw. unfold make_resilient_call.
  rewrite <- (app_nil_r (range max_retries)).
  destruct (retry_loop_retries w url max_retries (timeout_of timeout_strategy)
              (range max_retries) [] (tick_call env)
              (CallStats_new timeout_strategy))
    as (st & E & H1 & H2 & H3 & _).
  { rewrite length_range. exact Hw. }
  rewrite E. cbn [retry_loop].
  eexists; eexists; split; [reflexivity|].
  unfold len in *. rewrite length_range in *.
  revert H1 H2 H3. fields. unfold attempts_between.
  cbn [requests_later tick_call http_attempts]. intros. repeat split; lia.
Qed.

Lemma retries_exhausted_witness :
  exists stats env',
    make_resilient_call (always (answered 404 10 (inr hello) 11))
      "http://localhost:8080" 5 AGGRESSIVE env0
    = (Returned (error_dict "Max retries exceeded", stats), env') /\
    attempts_between env0 env' = 5 /\
    total_calls stats = 5 /\ total_errors stats = 5 /\ total_success stats = 0.
Proof.
  apply (retries_exhausted (always (answered 404 10 (inr hello) 11))); [lia|].
  intros i Hi. eexists; split; [reflexivity|]. right; reflexivity.
Defined.

(** ** A server that cannot be reached *)

Lemma retry_loop_refused (w : World) (url : string) (max_retries : Z)
    (timeout : Q) (n : nat) :
  forall a env stats,
    Z.of_nat (a + n) = max_retries -> (0 < n)%nat ->
    (forall i, (i < n)%nat ->
       exists e, reply (w (http_attempts env + i)%nat url timeout) = inl e /\
                 caught e = true) ->
    exists e stats',
      reply (w (http_attempts env + (n - 1))%nat url timeout) = inl e /\
      retry_loop w url max_retries timeout (map Z.of_nat (seq a n)) env stats
      = (Returned (error_dict (str e), stats'), requests_later n env) /\
      total_calls stats' = total_calls stats /\
      total_errors stats' = total_errors stats + Z.of_nat n /\
      total_success stats' = total_success stats /\
      response_times stats' = response_times stats /\
      total_time stats' = total_time stats.
Proof.
  induction n as [|n IH]; intros a env stats Ha Hn Hw; [lia|].
  destruct (Hw 0%nat) as (e & He & Hc); [lia|]. rewrite Nat.add_0_r in He.
  cbn [seq map retry_loop]. unfold attempt_body, except_clause.
  rewrite He, Hc.
  destruct (Z.of_nat a =? max_retries - 1) eqn:Hlast.
  - apply Z.eqb_eq in Hlast. assert (n = 0)%nat by lia. subst n.
    exists e. eexists. cbn [Nat.sub]. rewrite Nat.add_0_r.
    split; [exact He|].
    rewrite requests_later_S, requests_later_0.
    split; [reflexivity|]. fields. repeat split; lia.
  - apply Z.eqb_neq in Hlast.
    destruct (IH (S a) (tick_request env) (incr_errors stats))
      as (e' & st' & He' & E & H1 & H2 & H3 & H4 & H5); [lia | lia | |].
    { intros i Hi. destruct (Hw (S i)) as (e1 & He1 & Hc1); [lia|].
      exists e1. split; [|exact Hc1]. cbn [tick_request http_attempts].
      now replace (S (http_attempts env) + i)%nat
        with (http_attempts env + S i)%nat by lia. }
    exists e', st'. split.
    { cbn [tick_request http_attempts] in He'.
      now replace (http_attempts env + (S n - 1))%nat
        with (S (http_attempts env) + (n - 1))%nat by lia. }
    rewrite requests_later_S. split; [exact E|].
    revert H1 H2 H3 H4 H5. fields. intros. repeat split; try lia; assumption.
Qed.

(** X4. For every retry budget of at least 1, when each request fails
    with an exception the [except] clause catches, the call spends the
    whole budget and returns [{"error": str(e)}] for the exception of the
    last request; [total_errors] is the budget while [total_calls] stays
    0 and no response time is recorded. *)
Theorem server_unreachable (w : World) (url : string) (max_retries : Z)
    (timeout_strategy : TimeoutStrategy) (env : Env) :
  1 <= max_retries ->
  (forall i, (i < Z.to_nat max_retries)%nat ->
     exists e, reply (w (http_attempts env + i)%nat url (timeout_of timeout_strategy))
               = inl e /\ caught e = true) ->
  exists e stats env',
    reply (w (http_attempts env + (Z.to_nat max_retries - 1))%nat url
             (timeout_of timeout_strategy)) = inl e /\
    make_resilient_call w url max_retries timeout_strategy env
    = (Returned (error_dict (str e), stats), env') /\
    attempts_between env env' = max_retries /\
    total_calls stats = 0 /\ total_errors stats = max_retries /\
    total_success stats = 0 /\ response_times stats = [] /\
    total_time stats = 0%Q.
Proof.
  intros Hn Hw. unfold make_resilient_call, range.
  destruct (retry_loop_refused w url max_retries (timeout_of timeout_strategy)
              (Z.to_nat max_retries) 0%nat (tick_call env)
              (CallStats_new timeout_strategy))
    as (e & st & He & E & H1 & H2 & H3 & H4 & H5); [lia | lia | exact Hw |].
  exists e, st. eexists. split; [exact He|]. split; [exact E|].
  revert H1 H2 H3 H4 H5. fields. unfold attempts_between.
  cbn [requests_later tick_call http_attempts]. intros.
  repeat split; try lia; assumption.
Qed.

Lemma server_unreachable_witness :
  exists e stats env',
    reply (always refused (http_attempts env0 + (Z.to_nat 4 - 1))%nat
             "http://localhost:8080" (timeout_of PATIENT)) = inl e /\
    make_resilient_call (always refused) "http://localhost:8080" 4 PATIENT env0
    = (Returned (error_dict (str e), stats), env') /\
    attempts_between env0 env' = 4 /\
    total_calls stats = 0 /\ total_errors stats = 4 /\
    total_success stats = 0 /\ response_times stats = [] /\
    total_time stats = 0%Q.
Proof.
  apply (server_unreachable (always refused)); [lia|].
  intros i Hi. eexists; split; reflexivity.
Defined.

(** ** Counting attempts *)

(** A rule for the retry loop: [P] holds of the statistics between
    iterations, [F] of the statistics handed back; both are indexed by
    the number of requests issued so far. *)
Lemma retry_loop_rule (P F : CallStats -> Z -> Prop) (w : World) (url : string)
    (max_retries : Z) (timeout : Q) :
  (forall st k, P st k -> F st k) ->
  (forall attempt n st k,
     P st k ->
     match attempt_body max_retries timeout attempt (w n url timeout) st with
     | Continue st' => P st' (k + 1)
     | Return _ st' => F st' (k + 1)
     | Propagate _ => True
     end) ->
  forall attempts env st k,
    P st k ->
    match retry_loop w url max_retries timeout attempts env st with
    | (Returned (_, st'), env') => F st' (k + attempts_between env env')
    | (Raised _, _) => True
    end.
Proof.
  intros HPF Hstep attempts.
  induction attempts as [|attempt rest IH]; intros env st k HP; cbn [retry_loop].
  - unfold attempts_between. rewrite Z.sub_diag, Z.add_0_r. now apply HPF.
  - specialize (Hstep attempt (http_attempts env) st k HP).
    destruct (attempt_body _ _ _ _ _) as [st'|res st'|e].
    + specialize (IH (tick_request env) st' (k + 1) Hstep).
      destruct (retry_loop _ _ _ _ _ _ _) as [[[res st'']|e] env']; [|exact I].
      replace (k + attempts_between env env')
        with (k + 1 + attempts_between (tick_request env) env'); [exact IH|].
      unfold attempts_between. cbn [tick_request http_attempts]. lia.
    + replace (attempts_between env (tick_request env)) with 1; [exact Hstep|].
      unfold attempts_between. cbn [tick_request http_attempts]. lia.
    + exact I.
Qed.

(** The same for the loop of [run_test]: [G] holds of the run-level
    statistics, indexed by the requests issued and the calls folded in,
    and is kept by folding in a call that satisfies [F]. *)
Lemma run_loop_rule (F : CallStats -> Z -> Prop) (G : CallStats -> Z -> Z -> Prop)
    (w : World) (url : string) (timeout_strategy : TimeoutStrategy) :
  (forall env,
     match make_resilient_call w url default_max_retries timeout_strategy env with
     | (Returned (_, st), env') => F st (attempts_between env env')
     | (Raised _, _) => True
     end) ->
  (forall all_stats call_stats k1 k2 c,
     G all_stats k1 c -> F call_stats k2 ->
     G (accumulate all_stats call_stats) (k1 + k2) (c + 1)) ->
  forall calls env all_stats k c,
    G all_stats k c ->
    match run_loop w url timeout_strategy calls env all_stats with
    | (Returned st, env') => G st (k + attempts_between env env') (c + len calls)
    | (Raised _, _) => True
    end.
Proof.
  intros Hcall Hadd calls.
  induction calls as [|i rest IH]; intros env all_stats k c HG; cbn [run_loop].
  - unfold attempts_between. change (len []) with 0.
    now rewrite Z.sub_diag, !Z.add_0_r.
  - specialize (Hcall env).
    destruct (make_resilient_call _ _ _ _ _) as [[[res st]|e] env1]; [|exact I].
    specialize (IH env1 (accumulate all_stats st) _ _ (Hadd _ _ _ _ _ HG Hcall)).
    destruct (run_loop _ _ _ _ _ _) as [[st'|e] env']; [|exact I].
    replace (k + attempts_between env env')
      with (k + attempts_between env env1 + attempts_between env1 env')
      by (unfold attempts_between; lia).
    replace (c + len (i :: rest)) with (c + 1 + len rest)
      by (unfold len; cbn [List.length]; lia).
    exact IH.
Qed.

Lemma counted_within_body (max_retries : Z) (timeout : Q) (attempt : Z)
    (x : Exchange) (st : CallStats) (k : Z) :
  counted_within st k ->
  match attempt_body max_retries timeout attempt x st with
  | Continue st' | Return _ st' => counted_within st' (k + 1)
  | Propagate _ => True
  end.
Proof.
  unfold counted_within. intros H. unfold attempt_body, except_clause.
  destruct (reply x) as [e|r].
  - destruct (caught e); [|exact I].
    destruct (attempt =? max_retries - 1); fields; lia.
  - destruct (classify_cases r timeout) as [-> | [-> | [-> | [-> | ->]]]];
      cbn [String.eqb Ascii.eqb Bool.eqb orb andb];
      try (destruct (attempt <? max_retries - 1); fields; lia);
      try (fields; lia);
      (destruct (json r) as [e|body]; [|fields; lia];
       destruct (caught e); [|exact I];
       destruct (attempt =? max_retries - 1); fields; lia).
Qed.

Lemma counted_within_accumulate (all_stats call_stats : CallStats)
    (k1 k2 c : Z) :
  counted_within all_stats k1 -> counted_within call_stats k2 ->
  counted_within (accumulate all_stats call_stats) (k1 + k2).
Proof. unfold counted_within. fields. lia. Qed.

(** X5. Whatever the world does, the statistics a call or a run returns
    are bounded by the number of HTTP requests it issued:
    [0 <= total_success <= total_calls <= requests],
    [0 <= total_errors <= requests] and
    [requests <= total_success + total_errors]. *)
Theorem counters_bounded_by_requests (w : World) (url : string)
    (max_retries num_calls : Z) (timeout_strategy : TimeoutStrategy) (env : Env) :
  match make_resilient_call w url max_retries timeout_strategy env with
  | (Returned (_, st), env') => counted_within st (attempts_between env env')
  | (Raised _, _) => True
  end /\
  match run_test w num_calls timeout_strategy env with
  | (Returned st, env') => counted_within st (attempts_between env env')
  | (Raised _, _) => True
  end.
Proof.
  assert (Hnew : counted_within (CallStats_new timeout_strategy) 0)
    by (unfold counted_within; fields; lia).
  assert (Hcall : forall url max_retries env,
    match make_resilient_call w url max_retries timeout_strategy env with
    | (Returned (_, st), env') => counted_within st (attempts_between env env')
    | (Raised _, _) => True
    end).
  { intros url0 mr env1. unfold make_resilient_call.
    pose proof (retry_loop_rule counted_within counted_within w url0 mr
                  (timeout_of timeout_strategy) (fun _ _ H => H)
                  (fun attempt n st k =>
                     counted_within_body mr _ attempt _ st k)
                  (range mr) (tick_call env1) _ 0 Hnew) as H.
    destruct (retry_loop _ _ _ _ _ _ _) as [[[res st]|e] env']; [|exact I].
    rewrite Z.add_0_l in H. exact H. }
  split; [apply Hcall|].
  unfold run_test.
  pose proof (run_loop_rule counted_within (fun st k _ => counted_within st k) w
                "http://localhost:8080" timeout_strategy
                (Hcall _ _) counted_within_accumulate
                (range num_calls) env _ 0 0 Hnew) as H.
  destruct (run_loop _ _ _ _ _ _) as [[st|e] env']; [|exact I].
  rewrite Z.add_0_l in H. exact H.
Qed.

Lemma counted_once_body (max_retries : Z) (timeout : Q) (attempt : Z)
    (x : Exchange) (st : CallStats) (k : Z) :
  (forall r, reply x = inr r -> exists body, json r = inr body) ->
  total_success st = 0 /\ total_errors st = k /\ 0 <= k ->
  match attempt_body max_retries timeout attempt x st with
  | Continue st' => total_success st' = 0 /\ total_errors st' = k + 1 /\ 0 <= k + 1
  | Return _ st' => counted_once st' (k + 1) /\ total_success st' <= 1
  | Propagate _ => True
  end.
Proof.
  unfold counted_once. intros Hx H. unfold attempt_body, except_clause.
  destruct (reply x) as [e|r].
  - destruct (caught e); [|exact I].
    destruct (attempt =? max_retries - 1); fields; lia.
  - destruct (Hx r eq_refl) as (body & ->).
    destruct (classify_cases r timeout) as [-> | [-> | [-> | [-> | ->]]]];
      cbn [String.eqb Ascii.eqb Bool.eqb orb andb];
      try (destruct (attempt <? max_retries - 1); fields; lia);
      fields; lia.
Qed.

(** X6. When every body decodes, each HTTP request is counted exactly
    once, as a success or as an error: a call and a run return
    [total_success + total_errors = requests], a call succeeds at most
    once, and a run has at most [num_calls] successes. *)
Theorem every_attempt_counted_once (w : World) (url : string)
    (max_retries num_calls : Z) (timeout_strategy : TimeoutStrategy) (env : Env) :
  bodies_decode w ->
  match make_resilient_call w url max_retries timeout_strategy env with
  | (Returned (_, st), env') =>
      counted_once st (attempts_between env env') /\ total_success st <= 1
  | (Raised _, _) => True
  end /\
  match run_test w num_calls timeout_strategy env with
  | (Returned st, env') =>
      counted_once st (attempts_between env env') /\
      total_success st <= Z.max 0 num_calls
  | (Raised _, _) => True
  end.
Proof.
  intros Hw.
  assert (Hcall : forall url max_retries env,
    match make_resilient_call w url max_retries timeout_strategy env with
    | (Returned (_, st), env') =>
        counted_once st (attempts_between env env') /\ total_success st <= 1
    | (Raised _, _) => True
    end).
  { intros url0 mr env1. unfold make_resilient_call.
    pose proof (retry_loop_rule
                  (fun st k => total_success st = 0 /\ total_errors st = k /\ 0 <= k)
                  (fun st k => counted_once st k /\ total_success st <= 1)
                  w url0 mr (timeout_of timeout_strategy)) as H.
    cbv beta in H.
    specialize (H ltac:(unfold counted_once; intros; lia)).
    specialize (H (fun attempt n st k =>
                     counted_once_body mr _ attempt _ st k (Hw n url0 _))).
    specialize (H (range mr) (tick_call env1) (CallStats_new timeout_strategy) 0).
    cbv beta in H. specialize (H ltac:(fields; lia)).
    destruct (retry_loop _ _ _ _ _ _ _) as [[[res st]|e] env']; [|exact I].
    rewrite Z.add_0_l in H. exact H. }
  split; [apply Hcall|].
  unfold run_test.
  pose proof (run_loop_rule
                (fun st k => counted_once st k /\ total_success st <= 1)
                (fun st k c => counted_once st k /\ total_success st <= c)
                w "http://localhost:8080" timeout_strategy (Hcall _ _)) as H.
  cbv beta in H.
  specialize (H ltac:(unfold counted_once; fields; intros; lia)).
  specialize (H (range num_calls) env (CallStats_new timeout_strategy) 0 0).
  specialize (H ltac:(unfold counted_once; fields; lia)).
  destruct (run_loop _ _ _ _ _ _) as [[st|e] env']; [|exact I].
  unfold len in H. rewrite length_range in H.
  rewrite Z.add_0_l in H. destruct H as (H1 & H2). split; [exact H1|lia].
Qed.

Lemma bodies_decode_always (x : Exchange) :
  (forall r, reply x = inr r -> exists body, json r = inr body) ->
  bodies_decode (always x).
Proof. intros H n url timeout r Hr. now apply H. Qed.

Lemma every_attempt_counted_once_witness :
  match make_resilient_call (always (answered 503 (1 # 10) (inr hello) (1 # 8)))
          "http://localhost:8080" 3 PATIENT env0 with
  | (Returned (_, st), env') =>
      counted_once st (attempts_between env0 env') /\ total_success st <= 1
  | (Raised _, _) => True
  end /\
  match run_test (always (answered 503 (1 # 10) (inr hello) (1 # 8))) 2 PATIENT env0 with
  | (Returned st, env') =>
      counted_once st (attempts_between env0 env') /\
      total_success st <= Z.max 0 2
  | (Raised _, _) => True
  end.
Proof.
  apply (every_attempt_counted_once
           (always (answered 503 (1 # 10) (inr hello) (1 # 8)))
           "http://localhost:8080" 3 2 PATIENT env0).
  apply bodies_decode_always. intros r Hr. injection Hr as <-.
  eexists. reflexivity.
Defined.

(** ** The strategy of the statistics *)

Lemma strategy_kept_body (max_retries : Z) (timeout : Q) (attempt : Z)
    (x : Exchange) (st : CallStats) (s : TimeoutStrategy) :
  timeout_strategy st = Some s ->
  match attempt_body max_retries timeout attempt x st with
  | Continue st' | Return _ st' => timeout_strategy st' = Some s
  | Propagate _ => True
  end.
Proof.
  intros H. unfold attempt_body, except_clause.
  destruct (reply x) as [e|r].
  - destruct (caught e); [|exact I].
    now destruct (attempt =? max_retries - 1).
  - destruct (classify_cases r timeout) as [-> | [-> | [-> | [-> | ->]]]];
      cbn [String.eqb Ascii.eqb Bool.eqb orb andb];
      try (now destruct (attempt <? max_retries - 1));
      try exact H;
      (destruct (json r) as [e|body]; [|exact H];
       destruct (caught e); [|exact I];
       now destruct (attempt =? max_retries - 1)).
Qed.

Lemma strategy_kept_call (w : World) (url : string) (max_retries : Z)
    (s : TimeoutStrategy) (env : Env) :
  match make_resilient_call w url max_retries s env with
  | (Returned (_, st), _) => timeout_strategy st = Some s
  | (Raised _, _) => True
  end.
Proof.
  unfold make_resilient_call.
  pose proof (retry_loop_rule (fun st _ => timeout_strategy st = Some s)
                (fun st _ => timeout_strategy st = Some s)
                w url max_retries (timeout_of s) (fun _ _ H => H)
                (fun attempt n st _ => strategy_kept_body max_retries _ attempt _ st s)
                (range max_retries) (tick_call env) (CallStats_new s) 0 eq_refl) as H.
  now destruct (retry_loop _ _ _ _ _ _ _) as [[[res st]|e] env'].
Qed.

Lemma strategy_kept_run_loop (w : World) (url : string) (s : TimeoutStrategy)
    (calls : list Z) :
  forall env all_stats,
    timeout_strategy all_stats = Some s ->
    match run_loop w url s calls env all_stats with
    | (Returned st, _) => timeout_strategy st = Some s
    | (Raised _, _) => True
    end.
Proof.
  induction calls as [|i rest IH]; intros env all_stats H; cbn [run_loop].
  - exact H.
  - destruct (make_resilient_call _ _ _ _ _) as [[[res st]|e] env1]; [|exact I].
    now apply IH.
Qed.

(** X7. The statistics returned by a call and by a run carry the
    strategy the call or run was made with, however many attempts and
    calls were folded in. *)
Theorem returned_stats_keep_strategy (w : World) (url : string)
    (max_retries num_calls : Z) (s : TimeoutStrategy) (env : Env) :
  on_returned (fun p => timeout_strategy (snd p) = Some s)
    (fst (make_resilient_call w url max_retries s env)) /\
  on_returned (fun st => timeout_strategy st = Some s)
    (fst (run_test w num_calls s env)).
Proof.
  split.
  - pose proof (strategy_kept_call w url max_retries s env) as H.
    now destruct (make_resilient_call _ _ _ _ _) as [[[res st]|e] env'].
  - unfold run_test.
    pose proof (strategy_kept_run_loop w "http://localhost:8080" s
                  (range num_calls) env (CallStats_new s) eq_refl) as H.
    now destruct (run_loop _ _ _ _ _ _) as [[st|e] env'].
Qed.

(** ** A run performs every logical call *)

Lemma default_call_bounds (w : World) (url : string)
    (timeout_strategy : TimeoutStrategy) (env : Env) :
  transport_only w ->
  exists result stats env',
    make_resilient_call w url default_max_retries timeout_strategy env
    = (Returned (result, stats), env') /\
    engine_calls env' = S (engine_calls env) /\
    1 <= attempts_between env env' <= 3.
Proof.
  intros Hw. unfold make_resilient_call.
  destruct (retry_loop_returns w url default_max_retries
              (timeout_of timeout_strategy) Hw (range default_max_retries)
              (tick_call env) (CallStats_new timeout_strategy))
    as (res & st & env' & E).
  exists res, st, env'. split; [exact E|].
  pose proof (retry_loop_attempts w url default_max_retries
                (timeout_of timeout_strategy) (range default_max_retries)
                (tick_call env) (CallStats_new timeout_strategy)) as H.
  cbn zeta in H. rewrite E in H. cbn [snd] in H.
  destruct H as ((_ & Hhi) & Hlo & Hc).
  specialize (Hlo ltac:(discriminate)).
  change (List.length (range default_max_retries)) with 3%nat in Hhi.
  cbn [tick_call http_attempts engine_calls] in *.
  unfold attempts_between. repeat split; lia.
Qed.

Lemma run_loop_bounds (w : World) (url : string)
    (timeout_strategy : TimeoutStrategy) (calls : list Z) :
  transport_only w ->
  forall env all_stats,
  exists stats env',
    run_loop w url timeout_strategy calls env all_stats = (Returned stats, env') /\
    engine_calls env' = (engine_calls env + List.length calls)%nat /\
    len calls <= attempts_between env env' <= 3 * len calls.
Proof.
  intros Hw. induction calls as [|i rest IH]; intros env all_stats; cbn [run_loop].
  - exists all_stats, env. split; [reflexivity|].
    unfold attempts_between, len. cbn [List.length]. lia.
  - destruct (default_call_bounds w url timeout_strategy env Hw)
      as (res & st & env1 & E & Hc & Ha).
    rewrite E.
    destruct (IH env1 (accumulate all_stats st)) as (st' & env' & E' & Hc' & Ha').
    exists st', env'. split; [exact E'|].
    unfold attempts_between, len in *. cbn [List.length]. lia.
Qed.

(** X8. When the world raises transport failures only, a run never
    aborts: [run_test] returns after exactly [num_calls] engine
    invocations, having issued between [num_calls] and [3 * num_calls]
    HTTP requests. *)
Theorem run_performs_every_call (w : World) (num_calls : Z)
    (timeout_strategy : TimeoutStrategy) (env : Env) :
  transport_only w ->
  0 <= num_calls ->
  exists stats env',
    run_test w num_calls timeout_strategy env = (Returned stats, env') /\
    Z.of_nat (engine_calls env') = Z.of_nat (engine_calls env) + num_calls /\
    num_calls <= attempts_between env env' <= 3 * num_calls.
Proof.
  intros Hw Hn. unfold run_test.
  destruct (run_loop_bounds w "http://localhost:8080" timeout_strategy
              (range num_calls) Hw env (CallStats_new timeout_strategy))
    as (st & env' & E & Hc & Ha).
  exists st, env'. split; [exact E|].
  unfold len in Ha. rewrite length_range in *. lia.
Qed.

Lemma run_performs_every_call_witness :
  exists stats env',
    run_test (always (answered 200 (1 # 10) (inl JSONDecodeError) (1 # 8))) 4
      AGGRESSIVE env0 = (Returned stats, env') /\
    Z.of_nat (engine_calls env') = Z.of_nat (engine_calls env0) + 4 /\
    4 <= attempts_between env0 env' <= 3 * 4.
Proof.
  apply run_performs_every_call; [|lia].
  apply transport_only_always. reflexivity.
Defined.

(** X9. An exception that is neither a [RequestException] nor a
    [ValueError], raised by the first request, leaves
    [make_resilient_call] and [run_test] at once: one request is issued
    and no statistics are returned. *)
Theorem foreign_exception_aborts (w : World) (url : string)
    (max_retries num_calls : Z) (timeout_strategy : TimeoutStrategy) (env : Env)
    (e : exception) :
  1 <= max_retries -> 1 <= num_calls ->
  (forall url, reply (w (http_attempts env) url (timeout_of timeout_strategy)) = inl e) ->
  caught e = false ->
  make_resilient_call w url max_retries timeout_strategy env
  = (Raised e, tick_request (tick_call env)) /\
  run_test w num_calls timeout_strategy env
  = (Raised e, tick_request (tick_call env)).
Proof.
  intros Hm Hn Hw Hc.
  assert (Hcall : forall url mr, 1 <= mr ->
            make_resilient_call w url mr timeout_strategy env
            = (Raised e, tick_request (tick_call env))).
  { intros url0 mr Hmr. unfold make_resilient_call.
    rewrite (range_pos _ Hmr). cbn [retry_loop].
    unfold attempt_body, except_clause.
    cbn [tick_call http_attempts]. now rewrite Hw, Hc. }
  split; [now apply Hcall|].
  unfold run_test. rewrite (range_pos _ Hn). cbn [run_loop].
  rewrite Hcall; [reflexivity|]. unfold default_max_retries. lia.
Qed.

Lemma foreign_exception_aborts_witness :
  make_resilient_call (always (mkExchange (inl KeyboardInterrupt) 0%Q))
    "http://localhost:8080" 3 PATIENT env0
  = (Raised KeyboardInterrupt, tick_request (tick_call env0)) /\
  run_test (always (mkExchange (inl KeyboardInterrupt) 0%Q)) 100 PATIENT env0
  = (Raised KeyboardInterrupt, tick_request (tick_call env0)).
Proof.
  apply (foreign_exception_aborts (always (mkExchange (inl KeyboardInterrupt) 0%Q)));
    try lia; reflexivity.
Defined.

(** ** The report and its guards *)

Lemma average_time_total (mean : list Q -> outcome Q) (st : CallStats) :
  (forall l, l <> [] -> exists v, mean l = Returned v) ->
  exists v, average_time mean st = Returned v.
Proof.
  intros H. unfold average_time.
  destruct (response_times st) as [|x l]; cbn [truthy]; [now eexists|].
  apply H. discriminate.
Qed.

Lemma stddev_time_total (stdev : list Q -> outcome Q) (st : CallStats) :
  (forall l, 1 < len l -> exists v, stdev l = Returned v) ->
  exists v, stddev_time stdev st = Returned v.
Proof.
  intros H. unfold stddev_time.
  destruct (len (response_times st) >? 1) eqn:E; [|now eexists].
  apply H. apply Z.gtb_lt in E. lia.
Qed.

Lemma percentile_95_total (np_percentile : list Q -> Z -> outcome Q)
    (st : CallStats) :
  (forall l q, l <> [] -> 0 <= q <= 100 ->
     exists v, np_percentile l q = Returned v) ->
  exists v, percentile_95 np_percentile st = Returned v.
Proof.
  intros H. unfold percentile_95.
  destruct (response_times st) as [|x l]; cbn [truthy]; [now eexists|].
  apply H; [discriminate | lia].
Qed.

Lemma print_statistics_total (mean stdev : list Q -> outcome Q)
    (np_percentile : list Q -> Z -> outcome Q) (np_median : list Q -> outcome Q)
    (st : CallStats) (s : TimeoutStrategy) :
  library_total mean stdev np_percentile np_median ->
  timeout_strategy st = Some s ->
  exists report,
    print_statistics mean stdev np_percentile np_median st = Returned report /\
    len report = if truthy (response_times st) then 12 else 7.
Proof.
  intros (Hmean & Hdev & Hperc & Hmed) Hs. unfold print_statistics.
  rewrite Hs. cbn [bind].
  destruct (average_time_total mean st Hmean) as (a & ->).
  destruct (stddev_time_total stdev st Hdev) as (d & ->).
  destruct (percentile_95_total np_percentile st Hperc) as (p & ->).
  cbn [bind].
  destruct (response_times st) as [|x l]; cbn [truthy].
  - eexists; split; reflexivity.
  - cbn [py_min py_max bind].
    destruct (Hmed (x :: l) ltac:(discriminate)) as (m & ->).
    destruct (Hperc (x :: l) 75 ltac:(discriminate) ltac:(lia)) as (p75 & ->).
    destruct (Hperc (x :: l) 99 ltac:(discriminate) ltac:(lia)) as (p99 & ->).
    cbn [bind]. eexists; split; reflexivity.
Qed.

(** X10. [print_statistics] calls the library functions within their
    domains only: if [mean] and [np.median] return on non-empty lists,
    [stdev] on lists of two or more and [np.percentile] on non-empty
    lists for percentiles between 0 and 100, the report is produced for
    every [CallStats] that has a strategy, with 12 numbers when there are
    response times and 7 when there are none; without a strategy it
    raises [AttributeError] before computing anything. *)
Theorem report_guards_library_calls (mean stdev : list Q -> outcome Q)
    (np_percentile : list Q -> Z -> outcome Q) (np_median : list Q -> outcome Q)
    (st : CallStats) :
  library_total mean stdev np_percentile np_median ->
  match timeout_strategy st with
  | Some _ =>
      exists report,
        print_statistics mean stdev np_percentile np_median st = Returned report /\
        len report = if truthy (response_times st) then 12 else 7
  | None =>
      print_statistics mean stdev np_percentile np_median st
      = Raised (AttributeError "'NoneType' object has no attribute 'value'")
  end.
Proof.
  intros Hlib. destruct (timeout_strategy st) as [s|] eqn:Hs.
  - now apply (print_statistics_total _ _ _ _ st s).
  - unfold print_statistics. now rewrite Hs.
Qed.

Lemma needs_points_total :
  library_total (needs_points 1) (needs_points 2) checked_percentile
    (needs_points 1).
Proof.
  assert (H1 : forall l : list Q, l <> [] -> exists v, needs_points 1 l = Returned v).
  { intros [|x l] Hl; [congruence|]. unfold needs_points, len.
    cbn [List.length]. destruct (Z.ltb_spec (Z.of_nat (S (List.length l))) 1);
      [lia | now eexists]. }
  split; [exact H1|]. split; [|split; [|exact H1]].
  - intros l Hl. unfold needs_points.
    destruct (Z.ltb_spec (len l) 2); [lia | now eexists].
  - intros l q Hl Hq. unfold checked_percentile.
    destruct (Z.ltb_spec q 0); [lia|]. destruct (Z.ltb_spec 100 q); [lia|].
    now apply H1.
Qed.

(** Outside its domain the stand-in raises, as [np.percentile] does. *)
Example checked_percentile_out_of_range :
  checked_percentile [1 # 8] 950
  = Raised (ValueError "Percentiles must be in the range [0, 100]").
Proof. reflexivity. Qed.

Lemma report_guards_library_calls_witness :
  exists report,
    print_statistics (needs_points 1) (needs_points 2) checked_percentile
      (needs_points 1) one_sample = Returned report /\
    len report = 12.
Proof.
  exact (report_guards_library_calls (needs_points 1) (needs_points 2)
           checked_percentile (needs_points 1) one_sample
           needs_points_total).
Defined.

(** ** The entry point *)

Lemma print_statistics_empty (mean stdev : list Q -> outcome Q)
    (np_percentile : list Q -> Z -> outcome Q) (np_median : list Q -> outcome Q)
    (st : CallStats) (s : TimeoutStrategy) :
  timeout_strategy st = Some s -> response_times st = [] ->
  exists report,
    print_statistics mean stdev np_percentile np_median st = Returned report.
Proof.
  intros Hs Hl. unfold print_statistics, average_time, stddev_time, percentile_95.
  rewrite Hs, Hl. cbn [bind truthy len List.length Z.of_nat Z.gtb Z.compare].
  now eexists.
Qed.

(** X11. With a non-positive number of calls [main] performs both runs
    without a single request and then fails: the success rate of the
    empty run divides by zero, whatever the world and the library
    functions. *)
Theorem main_divides_by_zero_on_empty_runs (mean stdev : list Q -> outcome Q)
    (np_percentile : list Q -> Z -> outcome Q) (np_median : list Q -> outcome Q)
    (w : World) (num_calls : Z) (env : Env) :
  num_calls <= 0 ->
  main mean stdev np_percentile np_median w num_calls env
  = (Raised ZeroDivisionError, env).
Proof.
  intros Hn. unfold main, run_test.
  rewrite (range_nonpos _ Hn). reflexivity.
Qed.

Lemma main_divides_by_zero_on_empty_runs_witness :
  main (needs_points 1) (needs_points 2) (fun l _ => needs_points 1 l)
    (needs_points 1) (always (answered 200 (1 # 10) (inr hello) (1 # 8))) 0 env0
  = (Raised ZeroDivisionError, env0).
Proof. apply main_divides_by_zero_on_empty_runs. lia. Defined.

Lemma run_loop_unreachable (w : World) (url : string) (s : TimeoutStrategy)
    (calls : list Z) :
  unreachable w ->
  forall env all_stats,
    total_calls all_stats = 0 -> response_times all_stats = [] ->
    timeout_strategy all_stats = Some s ->
    exists stats env',
      run_loop w url s calls env all_stats = (Returned stats, env') /\
      total_calls stats = 0 /\ response_times stats = [] /\
      timeout_strategy stats = Some s /\
      attempts_between env env' = 3 * len calls /\
      total_errors stats = total_errors all_stats + 3 * len calls.
Proof.
  intros Hw. induction calls as [|i rest IH]; intros env all_stats Hc Hl Hs;
    cbn [run_loop].
  - exists all_stats, env. split; [reflexivity|].
    unfold attempts_between, len. cbn [List.length]. repeat split; auto; lia.
  - unfold make_resilient_call, range.
    destruct (retry_loop_refused w url default_max_retries (timeout_of s)
                3 0%nat (tick_call env) (CallStats_new s))
      as (e & st & _ & E & H1 & H2 & H3 & H4 & H5);
      [reflexivity | lia | intros j _; apply Hw |].
    change (Z.to_nat default_max_retries) with 3%nat. rewrite E.
    destruct (IH (requests_later 3 (tick_call env)) (accumulate all_stats st))
      as (st' & env' & E' & Hc' & Hl' & Hs' & Ha' & He').
    { fields. rewrite H1, Hc. reflexivity. }
    { fields. rewrite H4, Hl. reflexivity. }
    { exact Hs. }
    exists st', env'. split; [exact E'|].
    revert Ha' He' H2. unfold attempts_between, len. fields.
    cbn [requests_later tick_call http_attempts List.length]. intros.
    repeat split; auto; lia.
Qed.

(** X12. When the server cannot be reached, [main] spends three requests
    on each of its [2 * num_calls] logical calls and then fails with
    [ZeroDivisionError]: no attempt was recorded as a call, so the
    success rate divides by zero. *)
Theorem main_divides_by_zero_when_unreachable (mean stdev : list Q -> outcome Q)
    (np_percentile : list Q -> Z -> outcome Q) (np_median : list Q -> outcome Q)
    (w : World) (num_calls : Z) (env : Env) :
  unreachable w ->
  exists env',
    main mean stdev np_percentile np_median w num_calls env
    = (Raised ZeroDivisionError, env') /\
    attempts_between env env' = 6 * Z.max 0 num_calls.
Proof.
  intros Hw. unfold main, run_test.
  destruct (run_loop_unreachable w "http://localhost:8080" AGGRESSIVE
              (range num_calls) Hw env (CallStats_new AGGRESSIVE))
    as (sa & env1 & Ea & Hca & Hla & Hsa & Haa & _); try reflexivity.
  rewrite Ea.
  destruct (run_loop_unreachable w "http://localhost:8080" PATIENT
              (range num_calls) Hw env1 (CallStats_new PATIENT))
    as (sp & env2 & Ep & Hcp & Hlp & Hsp & Hap & _); try reflexivity.
  rewrite Ep.
  destruct (print_statistics_empty mean stdev np_percentile np_median sa
              AGGRESSIVE Hsa Hla) as (ra & ->).
  destruct (print_statistics_empty mean stdev np_percentile np_median sp
              PATIENT Hsp Hlp) as (rp & ->).
  cbn [bind]. unfold true_div at 1. rewrite Hcp. cbn [Z.eqb bind].
  exists env2. split; [reflexivity|].
  unfold len in *. rewrite length_range in *.
  unfold attempts_between in *. lia.
Qed.

Lemma unreachable_always_refused : unreachable (always refused).
Proof. intros n url timeout. eexists; split; reflexivity. Qed.

Lemma main_divides_by_zero_when_unreachable_witness :
  exists env',
    main (needs_points 1) (needs_points 2) (fun l _ => needs_points 1 l)
      (needs_points 1) (always refused) 100 env0
    = (Raised ZeroDivisionError, env') /\
    attempts_between env0 env' = 6 * Z.max 0 100.
Proof.
  apply main_divides_by_zero_when_unreachable. exact unreachable_always_refused.
Defined.

Lemma calls_counted_body (max_retries : Z) (timeout : Q) (attempt : Z)
    (x : Exchange) (st : CallStats) (k : Z) :
  (exists r, reply x = inr r) ->
  total_calls st = k ->
  match attempt_body max_retries timeout attempt x st with
  | Continue st' | Return _ st' => total_calls st' = k + 1
  | Propagate _ => True
  end.
Proof.
  intros (r & Hr) H. unfold attempt_body, except_clause. rewrite Hr.
  destruct (classify_cases r timeout) as [-> | [-> | [-> | [-> | ->]]]];
    cbn [String.eqb Ascii.eqb Bool.eqb orb andb];
    try (destruct (attempt <? max_retries - 1); fields; lia);
    try (fields; lia);
    (destruct (json r) as [e|body]; [|fields; lia];
     destruct (caught e); [|exact I];
     destruct (attempt =? max_retries - 1); fields; lia).
Qed.

(** On a network that answers every request, a run that returns has
    recorded every request as a call, carries its strategy and satisfies
    the accounting invariant. *)
Lemma run_test_answered (w : World) (num_calls : Z) (s : TimeoutStrategy)
    (env : Env) :
  always_answered w -> transport_only w -> 1 <= num_calls ->
  exists stats env',
    run_test w num_calls s env = (Returned stats, env') /\
    Z.of_nat (engine_calls env') = Z.of_nat (engine_calls env) + num_calls /\
    1 <= total_calls stats /\
    truthy (response_times stats) = true /\
    timeout_strategy stats = Some s.
Proof.
  intros Ha Ht Hn. unfold run_test.
  destruct (run_loop_bounds w "http://localhost:8080" s (range num_calls) Ht env
              (CallStats_new s)) as (st & env' & E & Hc & Hb).
  exists st, env'. split; [exact E|].
  assert (Hcall : forall env,
    match make_resilient_call w "http://localhost:8080" default_max_retries s env with
    | (Returned (_, st), env') => total_calls st = attempts_between env env'
    | (Raised _, _) => True
    end).
  { intros env1. unfold make_resilient_call.
    pose proof (retry_loop_rule (fun st k => total_calls st = k)
                  (fun st k => total_calls st = k) w "http://localhost:8080"
                  default_max_retries (timeout_of s) (fun _ _ H => H)
                  (fun attempt n st k =>
                     calls_counted_body _ _ attempt _ st k (Ha n _ _))
                  (range default_max_retries) (tick_call env1) (CallStats_new s)
                  0 eq_refl) as H.
    destruct (retry_loop _ _ _ _ _ _ _) as [[[res st1]|e] env1']; [|exact I].
    rewrite Z.add_0_l in H. exact H. }
  pose proof (run_loop_rule (fun st k => total_calls st = k)
                (fun st k _ => total_calls st = k) w "http://localhost:8080" s
                Hcall) as Hrun.
  cbv beta in Hrun. specialize (Hrun ltac:(intros; fields; lia)).
  specialize (Hrun (range num_calls) env (CallStats_new s) 0 0 eq_refl).
  pose proof (invariant_run_loop w "http://localhost:8080" s (range num_calls)
                env (CallStats_new s) (invariant_new s)) as Hinv.
  pose proof (strategy_kept_run_loop w "http://localhost:8080" s
                (range num_calls) env (CallStats_new s) eq_refl) as Hs.
  rewrite E in Hrun, Hinv, Hs. cbn [fst on_returned] in Hinv.
  destruct Hinv as (Hlen & _).
  unfold len in Hb, Hlen. rewrite length_range in *.
  assert (Hpos : 1 <= total_calls st) by lia.
  repeat split; try lia; [|exact Hs].
  destruct (response_times st); [cbn in Hlen; lia | reflexivity].
Qed.

(** X13. When every request is answered by a response, only transport
    failures are raised, the library functions return within their
    domains ([mean], [np.median]: non-empty list; [stdev]: two data
    points or more; [np.percentile]: non-empty list and a percentile
    between 0 and 100) and [num_calls >= 1], [main] completes: both runs
    perform their [num_calls] logical calls and the 27 numbers of the
    two reports and the three differences are produced. *)
Theorem main_reports_when_answered (mean stdev : list Q -> outcome Q)
    (np_percentile : list Q -> Z -> outcome Q) (np_median : list Q -> outcome Q)
    (w : World) (num_calls : Z) (env : Env) :
  always_answered w -> transport_only w ->
  library_total mean stdev np_percentile np_median ->
  1 <= num_calls ->
  exists report env',
    main mean stdev np_percentile np_median w num_calls env
    = (Returned report, env') /\
    len report = 27 /\
    Z.of_nat (engine_calls env') = Z.of_nat (engine_calls env) + 2 * num_calls.
Proof.
  intros Ha Ht Hlib Hn. unfold main.
  destruct (run_test_answered w num_calls AGGRESSIVE env Ha Ht Hn)
    as (sa & env1 & Ea & Hca & Hpa & Hta & Hsa).
  rewrite Ea.
  destruct (run_test_answered w num_calls PATIENT env1 Ha Ht Hn)
    as (sp & env2 & Ep & Hcp & Hpp & Htp & Hsp).
  rewrite Ep.
  destruct (print_statistics_total mean stdev np_percentile np_median sa
              AGGRESSIVE Hlib Hsa) as (ra & -> & Hla).
  destruct (print_statistics_total mean stdev np_percentile np_median sp
              PATIENT Hlib Hsp) as (rp & -> & Hlp).
  rewrite Hta in Hla. rewrite Htp in Hlp.
  cbn [bind]. unfold true_div.
  destruct (Z.eqb_spec (total_calls sp) 0) as [|_]; [lia|].
  destruct (Z.eqb_spec (total_calls sa) 0) as [|_]; [lia|].
  cbn [bind].
  destruct Hlib as (Hmean & _).
  destruct (average_time_total mean sp Hmean) as (ap & ->).
  destruct (average_time_total mean sa Hmean) as (aa & ->).
  cbn [bind]. eexists; eexists; split; [reflexivity|].
  rewrite !len_app, Hla, Hlp. split; [reflexivity|lia].
Qed.

Lemma main_reports_when_answered_witness :
  exists report env',
    main (needs_points 1) (needs_points 2) checked_percentile
      (needs_points 1) (always (answered 503 (1 # 10) (inr hello) (1 # 8))) 2 env0
    = (Returned report, env') /\
    len report = 27 /\
    Z.of_nat (engine_calls env') = Z.of_nat (engine_calls env0) + 2 * 2.
Proof.
  apply main_reports_when_answered.
  - intros n url timeout. eexists; reflexivity.
  - apply transport_only_always. exact I.
  - exact needs_points_total.
  - lia.
Defined.

(** ** The test server *)

Lemma Qltb_true (a b : Q) : (a < b)%Q -> Qltb a b = true.
Proof.
  intros H. unfold Qltb. destruct (Qle_bool b a) eqn:E; [|reflexivity].
  apply Qle_bool_iff in E. exfalso. exact (Qlt_not_le _ _ H E).
Qed.

Lemma Qltb_false (a b : Q) : (b <= a)%Q -> Qltb a b = false.
Proof. intros H. unfold Qltb. apply Qle_bool_iff in H. now rewrite H. Qed.

(** X14. What [root] answers depends on the drawn number alone: below
    1/10 it raises [HTTPException] 503; from 1/10 up to 3/20 it sleeps 10
    seconds and returns the dictionary with scenario "unexpected_delay",
    the greeting and [delay_seconds = 10]; from 3/20 up to 1/5 it raises
    [HTTPException] 500; from 1/5 on it sleeps the drawn delay and
    returns the dictionary with scenario "normal", the greeting and
    [response_time_ms = round(delay * 1000, 2)].  The normal case thus
    covers four fifths of the draws and no other status is raised. *)
Theorem root_answer_by_draw (value delay : Q) (round2 : Q -> Q) :
  ((value < 1 # 10)%Q ->
   root value delay round2 = HTTPException 503 "Service temporarily unavailable") /\
  ((1 # 10 <= value)%Q -> (value < 3 # 20)%Q ->
   root value delay round2
   = Replied 10 (JObject [ ("scenario", JString "unexpected_delay");
                           ("message", JString "Hello, World!");
                           ("delay_seconds", JNumber 10) ])) /\
  ((3 # 20 <= value)%Q -> (value < 1 # 5)%Q ->
   root value delay round2 = HTTPException 500 "Internal Server Error") /\
  ((1 # 5 <= value)%Q ->
   root value delay round2
   = Replied delay
       (JObject [ ("scenario", JString "normal");
                  ("message", JString "Hello, World!");
                  ("response_time_ms", JNumber (round2 (delay * 1000)%Q)) ])).
Proof.
  unfold root, determine_scenario. cbv zeta.
  assert (E2 : ((10 # 100) + (5 # 100) == 3 # 20)%Q) by reflexivity.
  assert (E3 : ((10 # 100) + (5 # 100) + (5 # 100) == 1 # 5)%Q) by reflexivity.
  assert (E1 : ((10 # 100) == 1 # 10)%Q) by reflexivity.
  repeat split.
  - intros H. rewrite Qltb_true; [reflexivity|]. now rewrite E1.
  - intros H1 H2. rewrite Qltb_false by now rewrite E1.
    rewrite Qltb_true by now rewrite E2. reflexivity.
  - intros H1 H2.
    rewrite Qltb_false
      by (rewrite E1; eapply Qle_trans; [|exact H1]; discriminate).
    rewrite Qltb_false by now rewrite E2.
    rewrite Qltb_true by now rewrite E3. reflexivity.
  - intros H.
    rewrite Qltb_false
      by (rewrite E1; eapply Qle_trans; [|exact H]; discriminate).
    rewrite Qltb_false
      by (rewrite E2; eapply Qle_trans; [|exact H]; discriminate).
    rewrite Qltb_false by now rewrite E3. reflexivity.
Qed.

Lemma root_answer_by_draw_witness :
  root (1 # 20) (1 # 8) (fun q => q)
  = HTTPException 503 "Service temporarily unavailable" /\
  root (1 # 8) (1 # 8) (fun q => q)
  = Replied 10 (JObject [ ("scenario", JString "unexpected_delay");
                          ("message", JString "Hello, World!");
                          ("delay_seconds", JNumber 10) ]) /\
  root (3 # 20) (1 # 8) (fun q => q) = HTTPException 500 "Internal Server Error" /\
  root (1 # 5) (1 # 8) (fun q => q)
  = Replied (1 # 8)
      (JObject [ ("scenario", JString "normal");
                 ("message", JString "Hello, World!");
                 ("response_time_ms", JNumber ((1 # 8) * 1000)%Q) ]).
Proof.
  split; [|split; [|split]].
  - apply (proj1 (root_answer_by_draw (1 # 20) (1 # 8) (fun q => q))).
    reflexivity.
  - apply (proj1 (proj2 (root_answer_by_draw (1 # 8) (1 # 8) (fun q => q))));
      [discriminate | reflexivity].
  - apply (proj1 (proj2 (proj2 (root_answer_by_draw (3 # 20) (1 # 8) (fun q => q)))));
      [discriminate | reflexivity].
  - apply (proj2 (proj2 (proj2 (root_answer_by_draw (1 # 5) (1 # 8) (fun q => q))))).
    discriminate.
Defined.

(** ** The accounting in binary64 *)

Ltac float_fields :=
  cbn [Float64.record_attempt Float64.incr_errors Float64.incr_success
       Float64.accumulate Float64.CallStats_new
       Float64.total_calls Float64.total_errors Float64.total_success
       Float64.total_time Float64.response_times Float64.timeout_strategy].

Lemma fsum_snoc (l : list float) (x : float) :
  Float64.fsum (l ++ [x]) = (Float64.fsum l + x)%float.
Proof. unfold Float64.fsum. now rewrite fold_left_app. Qed.

Lemma float_counted_new (s : TimeoutStrategy) :
  Float64.call_invariant (Float64.CallStats_new s).
Proof. split; [split|]; float_fields; [reflexivity | lia | reflexivity]. Qed.

Lemma float_invariant_incr_errors (st : Float64.CallStats) :
  Float64.call_invariant st -> Float64.call_invariant (Float64.incr_errors st).
Proof.
  intros ((Hl & Hc) & Ht). split; [split|]; float_fields;
    [exact Hl | lia | exact Ht].
Qed.

Lemma float_invariant_recorded_error (st : Float64.CallStats) (x : float) :
  Float64.call_invariant st ->
  Float64.call_invariant (Float64.incr_errors (Float64.record_attempt st x)).
Proof.
  intros ((Hl & Hc) & Ht). split; [split|]; float_fields.
  - rewrite len_app. change (len [x]) with 1. lia.
  - lia.
  - now rewrite fsum_snoc, Ht.
Qed.

Lemma float_invariant_recorded_success (st : Float64.CallStats) (x : float) :
  Float64.call_invariant st ->
  Float64.call_invariant (Float64.incr_success (Float64.record_attempt st x)).
Proof.
  intros ((Hl & Hc) & Ht). split; [split|]; float_fields.
  - rewrite len_app. change (len [x]) with 1. lia.
  - lia.
  - now rewrite fsum_snoc, Ht.
Qed.

Create HintDb binary64.
#[local] Hint Resolve float_counted_new float_invariant_incr_errors
  float_invariant_recorded_error float_invariant_recorded_success : binary64.

Lemma float_invariant_except_clause (max_retries attempt : Z) (e : exception)
    (st : Float64.CallStats) :
  Float64.call_invariant st ->
  match Float64.except_clause max_retries attempt e st with
  | Float64.Continue st' | Float64.Return _ st' => Float64.call_invariant st'
  | Float64.Propagate _ => True
  end.
Proof.
  intros H. unfold Float64.except_clause.
  destruct (caught e); [|exact I].
  destruct (attempt =? max_retries - 1); auto with binary64.
Qed.

Lemma float_invariant_attempt_body (max_retries : Z) (timeout : Q) (attempt : Z)
    (x : Float64.Exchange) (st : Float64.CallStats) :
  Float64.call_invariant st ->
  match Float64.attempt_body max_retries timeout attempt x st with
  | Float64.Continue st' | Float64.Return _ st' => Float64.call_invariant st'
  | Float64.Propagate _ => True
  end.
Proof.
  intros H. unfold Float64.attempt_body.
  destruct (Float64.reply x) as [e|r];
    [now apply float_invariant_except_clause|].
  destruct (classify_cases r timeout) as [-> | [-> | [-> | [-> | ->]]]];
    cbn [String.eqb Ascii.eqb Bool.eqb orb andb];
    try (destruct (attempt <? max_retries - 1); now auto with binary64);
    try (now auto with binary64);
    (destruct (json r) as [e|body];
     [apply float_invariant_except_clause|]; auto with binary64).
Qed.

Lemma float_invariant_retry_loop (w : Float64.World) (url : string)
    (max_retries : Z) (timeout : Q) (attempts : list Z) :
  forall env st,
    Float64.call_invariant st ->
    on_returned (fun p => Float64.call_invariant (snd p))
      (fst (Float64.retry_loop w url max_retries timeout attempts env st)).
Proof.
  induction attempts as [|attempt rest IH]; intros env st H;
    cbn [Float64.retry_loop].
  - exact H.
  - pose proof (float_invariant_attempt_body max_retries timeout attempt
                  (w (http_attempts env) url timeout) st H) as Hb.
    destruct (Float64.attempt_body _ _ _ _ _) as [st'|res st'|e]; cbn.
    + now apply IH.
    + exact Hb.
    + exact I.
Qed.

Lemma float_invariant_call (w : Float64.World) (url : string)
    (max_retries : Z) (s : TimeoutStrategy) (env : Env) :
  on_returned (fun p => Float64.call_invariant (snd p))
    (fst (Float64.make_resilient_call w url max_retries s env)).
Proof.
  unfold Float64.make_resilient_call.
  apply float_invariant_retry_loop, float_counted_new.
Qed.

Lemma float_counted_accumulate (all_stats call_stats : Float64.CallStats) :
  Float64.counted all_stats -> Float64.counted call_stats ->
  Float64.counted (Float64.accumulate all_stats call_stats).
Proof.
  intros (Hl & Hc) (Hl' & Hc'). split; float_fields.
  - rewrite len_app. lia.
  - lia.
Qed.

(** The run loop adds each call's total to the running total and
    appends each call's response times. *)
Lemma float_run_loop (w : Float64.World) (url : string) (s : TimeoutStrategy)
    (calls : list Z) :
  forall env all_stats,
    Float64.counted all_stats ->
    on_returned
      (fun st =>
         let cs := Float64.call_stats_of w url s calls env in
         Float64.counted st /\
         Float64.response_times st
         = Float64.response_times all_stats
           ++ List.concat (map Float64.response_times cs) /\
         Float64.total_time st
         = fold_left (fun acc c => (acc + Float64.total_time c)%float) cs
             (Float64.total_time all_stats) /\
         Forall Float64.call_invariant cs)
      (fst (Float64.run_loop w url s calls env all_stats)).
Proof.
  induction calls as [|i rest IH]; intros env all_stats H;
    cbn [Float64.run_loop Float64.call_stats_of].
  - cbn. rewrite app_nil_r. repeat split; try apply H. constructor.
  - pose proof (float_invariant_call w url default_max_retries s env) as Hc.
    destruct (Float64.make_resilient_call _ _ _ _ _) as [[[res st]|e] env1];
      [|exact I].
    cbn [fst snd on_returned] in Hc.
    specialize (IH env1 (Float64.accumulate all_stats st)
                  (float_counted_accumulate _ _ H (proj1 Hc))).
    destruct (Float64.run_loop _ _ _ _ _ _) as [[st'|e] env']; [|exact I].
    cbn [fst on_returned] in *. cbv zeta in *.
    destruct IH as (H1 & H2 & H3 & H4).
    split; [exact H1|]. split; [|split].
    + rewrite H2. float_fields. cbn [map List.concat].
      now rewrite app_assoc.
    + rewrite H3. reflexivity.
    + now constructor.
Qed.


